(** * ezgeom: rectangle and circle registration into a spline geometry

    A shallow embedding of [ezgeom.py].  The three Python classes become
    the modules [rectangle], [circle] and [EzGeom]; a method that mutates
    [self] or the shared geometry object takes the old value and returns
    the new one; a Python exception is a [Raise] in the [result] monad.

    Coordinates, boundary tags and domain ids are modelled as [Z]: the code
    only compares coordinates with [==] and, for circles, adds and subtracts
    the radius, so exact numbers are what the dedup logic depends on.
    Point identifiers are [nat].  The [print] in [add_segs] writes to the
    console only and is not modelled. *)

From Stdlib Require Import ZArith List Bool Lia PeanoNat.
Import ListNotations.

Open Scope Z_scope.

(** ** Exceptions *)

Inductive exn : Type :=
| ValueError   (* list.index of an absent element *)
| IndexError.  (* subscript out of range *)

Inductive result (A : Type) : Type :=
| Ok (a : A)
| Raise (e : exn).

Arguments Ok {A} a.
Arguments Raise {A} e.

Definition bind {A B : Type} (m : result A) (k : A -> result B) : result B :=
  match m with
  | Ok a => k a
  | Raise e => Raise e
  end.

Notation "x <- m ;; k" := (bind m (fun x => k))
  (at level 61, m at next level, right associativity).
Notation "' pat <- m ;; k" := (bind m (fun x => match x with pat => k end))
  (at level 61, pat pattern, m at next level, right associativity).

(** A [for] loop whose body may raise: the state is threaded left to right
    and the first exception ends the loop. *)
Fixpoint for_each {S I : Type} (body : S -> I -> result S)
         (range : list I) (s : S) : result S :=
  match range with
  | [] => Ok s
  | i :: rest => s' <- body s i ;; for_each body rest s'
  end.

(** ** Points, segments and the Python list operations used on them *)

Definition point : Type := Z * Z.
Definition segment : Type := point * point.

Definition pt_eqb (p q : point) : bool :=
  (fst p =? fst q) && (snd p =? snd q).

Definition seg_eqb (s t : segment) : bool :=
  pt_eqb (fst s) (fst t) && pt_eqb (snd s) (snd t).

(** [pt in l] *)
Definition contains (l : list point) (pt : point) : bool :=
  existsb (fun q => pt_eqb q pt) l.

(** [l.index(pt)]: position of the first equal element, [ValueError] when
    there is none. *)
Fixpoint index (l : list point) (pt : point) : result nat :=
  match l with
  | [] => Raise ValueError
  | q :: rest => if pt_eqb q pt then Ok O
                 else i <- index rest pt ;; Ok (S i)
  end.

(** [l[i]] for an index that is never negative. *)
Definition getitem {A : Type} (l : list A) (i : nat) : result A :=
  match nth_error l i with
  | Some a => Ok a
  | None => Raise IndexError
  end.

(** ** The geometry description

    [SplineGeometry] belongs to netgen, not to this repository. *)

Inductive curve : Type :=
| line (p1 p2 : nat)
| spline3 (p1 pmid p2 : nat).

Record edge : Type := mk_edge {
  spec : curve;
  bc : Z;
  leftdomain : Z;
  rightdomain : Z
}.

(** Modelled from the spec: netgen's [SplineGeometry] is not part of the
    sources.  The description is an ordered list of registered points and
    an ordered list of registered edges; [AppendPoint] registers a new point
    and returns a fresh identifier, identifiers being assigned in call
    order; [Append] registers an edge. *)
Record SplineGeometry : Type := mk_geom {
  points : list point;
  edges : list edge
}.

Definition SplineGeometry_new : SplineGeometry :=
  {| points := []; edges := [] |}.

Definition AppendPoint (g : SplineGeometry) (x y : Z) : nat * SplineGeometry :=
  (length (points g),
   {| points := points g ++ [(x, y)]; edges := edges g |}).

Definition Append (g : SplineGeometry) (c : curve) (b l r : Z) : SplineGeometry :=
  {| points := points g;
     edges := edges g ++ [mk_edge c b l r] |}.

(** ** class rectangle *)

(** The [dout] argument: a list ([type(self.dout) == list]) is subscripted
    per edge, any other value is passed on as it is. *)
Inductive dout_t : Type :=
| Scalar (d : Z)
| PerEdge (l : list Z).

Module rectangle.

Record t : Type := mk {
  pts : list point;
  segs : list segment;
  nums : list nat;
  bnd : Z;
  din : Z;
  dout : dout_t
}.

Definition init (blpt trpt : point) (bnd din : Z) (dout : dout_t) : t :=
  let '(blX, blY) := blpt in
  let '(trX, trY) := trpt in
  let pts := [blpt; (trX, blY); trpt; (blX, trY)] in
  {| pts := pts;
     segs := map (fun i => (nth i pts blpt, nth ((i + 1) mod 4) pts blpt))
                 (seq 0 (length pts));
     nums := [];
     bnd := bnd;
     din := din;
     dout := dout |}.

Definition append_num (self : t) (n : nat) : t :=
  {| pts := pts self; segs := segs self; nums := nums self ++ [n];
     bnd := bnd self; din := din self; dout := dout self |}.

Definition has_pt (self : t) (pt : point) : bool :=
  contains (pts self) pt.

Definition has_seg (self : t) (seg : segment) : bool :=
  existsb (fun '(p1, p2) => seg_eqb (p2, p1) seg) (segs self).

Definition get_num (self : t) (pt : point) : result nat :=
  idx <- index (pts self) pt ;;
  getitem (nums self) idx.

(** The scan [for rect in others: if rect.has_pt(pt): match = True; break]:
    [Some rect] is the rectangle bound at the [break]. *)
Fixpoint scan_pt (others : list t) (pt : point) : option t :=
  match others with
  | [] => None
  | rect :: rest => if has_pt rect pt then Some rect else scan_pt rest pt
  end.

(** The same scan with [has_seg]; only the flag is used afterwards. *)
Fixpoint scan_seg (others : list t) (seg : segment) : bool :=
  match others with
  | [] => false
  | rect :: rest => if has_seg rect seg then true else scan_seg rest seg
  end.

(** Body of the loop of [add_points]. *)
Definition add_point (others : list t) (st : t * SplineGeometry) (i : nat)
  : result (t * SplineGeometry) :=
  let '(self, geom) := st in
  pt <- getitem (pts self) i ;;
  match scan_pt others pt with
  | Some rect =>
      n <- get_num rect pt ;;
      Ok (append_num self n, geom)
  | None =>
      let '(n, geom') := AppendPoint geom (fst pt) (snd pt) in
      Ok (append_num self n, geom')
  end.

Definition add_points (others : list t) (self : t) (geom : SplineGeometry)
  : result (t * SplineGeometry) :=
  for_each (add_point others) (seq 0 (length (pts self))) (self, geom).

(** Body of the loop of [add_segs]. *)
Definition add_seg (others : list t) (self : t) (geom : SplineGeometry)
           (i : nat) : result SplineGeometry :=
  seg <- getitem (segs self) i ;;
  if scan_seg others seg then Ok geom
  else
    let '(p1, p2) := seg in
    i1 <- index (pts self) p1 ;;
    num1 <- getitem (nums self) i1 ;;
    i2 <- index (pts self) p2 ;;
    num2 <- getitem (nums self) i2 ;;
    d <- match dout self with
         | PerEdge l => getitem l i
         | Scalar d => Ok d
         end ;;
    Ok (Append geom (line num1 num2) (bnd self) (din self) d).

Definition add_segs (others : list t) (self : t) (geom : SplineGeometry)
  : result SplineGeometry :=
  for_each (add_seg others self) (seq 0 (length (segs self))) geom.

Definition make_geometry (others : list t) (self : t) (geom : SplineGeometry)
  : result (t * SplineGeometry) :=
  '(self', geom') <- add_points others self geom ;;
  geom'' <- add_segs others self' geom' ;;
  Ok (self', geom'').

End rectangle.

(** ** class circle *)

Module circle.

Record t : Type := mk {
  pts : list point;
  nums : list nat;
  bnd : Z;
  din : Z;
  dout : Z
}.

Definition init (cenpt : point) (r bnd din dout : Z) : t :=
  let '(cenX, cenY) := cenpt in
  {| pts := [(cenX + r, cenY); (cenX + r, cenY + r); (cenX, cenY + r);
             (cenX - r, cenY + r); (cenX - r, cenY); (cenX - r, cenY - r);
             (cenX, cenY - r); (cenX + r, cenY - r)];
     nums := [];
     bnd := bnd;
     din := din;
     dout := dout |}.

(** [[geom.AppendPoint( *p) for p in ps]] *)
Fixpoint append_points (geom : SplineGeometry) (ps : list point)
  : list nat * SplineGeometry :=
  match ps with
  | [] => ([], geom)
  | p :: rest =>
      let '(n, geom') := AppendPoint geom (fst p) (snd p) in
      let '(ns, geom'') := append_points geom' rest in
      (n :: ns, geom'')
  end.

Definition set_nums (self : t) (ns : list nat) : t :=
  {| pts := pts self; nums := ns; bnd := bnd self; din := din self;
     dout := dout self |}.

(** Body of [for i in range(4)]. *)
Definition add_arc (self : t) (geom : SplineGeometry) (i : nat)
  : result SplineGeometry :=
  a <- getitem (nums self) (2 * i) ;;
  m <- getitem (nums self) (2 * i + 1) ;;
  b <- getitem (nums self) ((2 * i + 2) mod 8) ;;
  Ok (Append geom (spline3 a m b) (bnd self) (din self) (dout self)).

Definition make_geometry (self : t) (geom : SplineGeometry)
  : result (t * SplineGeometry) :=
  let '(ns, geom') := append_points geom (pts self) in
  let self' := set_nums self ns in
  geom'' <- for_each (add_arc self') (seq 0 4) geom' ;;
  Ok (self', geom'').

End circle.

(** ** class EzGeom *)

Module EzGeom.

Record t : Type := mk {
  rectangles : list rectangle.t;
  circles : list circle.t;
  geom : SplineGeometry
}.

Definition init : t :=
  {| rectangles := []; circles := []; geom := SplineGeometry_new |}.

Definition add_rect (self : t) (blpt trpt : point) (bnd din : Z)
           (dout : dout_t) : t :=
  {| rectangles := rectangles self ++ [rectangle.init blpt trpt bnd din dout];
     circles := circles self;
     geom := geom self |}.

Definition add_circle (self : t) (cenpt : point) (r bnd din dout : Z) : t :=
  {| rectangles := rectangles self;
     circles := circles self ++ [circle.init cenpt r bnd din dout];
     geom := geom self |}.

(** [l[i] = x] for the object stored at position [i]: the rectangle is
    mutated in place, so the list holds its new state. *)
Fixpoint store {A : Type} (l : list A) (i : nat) (x : A) : list A :=
  match l, i with
  | [], _ => []
  | _ :: rest, O => x :: rest
  | a :: rest, S j => a :: store rest j x
  end.

(** Body of the first loop: [self.rectangles[i].make_geometry(
    self.rectangles[:i], self.geom)]. *)
Definition rect_step (self : t) (i : nat) : result t :=
  r <- getitem (rectangles self) i ;;
  '(r', g') <- rectangle.make_geometry (firstn i (rectangles self)) r
                                       (geom self) ;;
  Ok {| rectangles := store (rectangles self) i r';
        circles := circles self;
        geom := g' |}.

(** Body of the second loop: [circ.make_geometry(self.geom)]. *)
Definition circ_step (self : t) (i : nat) : result t :=
  c <- getitem (circles self) i ;;
  '(c', g') <- circle.make_geometry c (geom self) ;;
  Ok {| rectangles := rectangles self;
        circles := store (circles self) i c';
        geom := g' |}.

Definition make_geometry (self : t) : result t :=
  self' <- for_each rect_step (seq 0 (length (rectangles self))) self ;;
  for_each circ_step (seq 0 (length (circles self'))) self'.

End EzGeom.

(** * Notions used in the statements *)

Definition extend (self : rectangle.t) (ids : list nat) : rectangle.t :=
  {| rectangle.pts := rectangle.pts self;
     rectangle.segs := rectangle.segs self;
     rectangle.nums := rectangle.nums self ++ ids;
     rectangle.bnd := rectangle.bnd self;
     rectangle.din := rectangle.din self;
     rectangle.dout := rectangle.dout self |}.

(** [later] is [earlier] after some more registrations. *)
Definition sim (earlier later : rectangle.t) : Prop :=
  exists ids, later = extend earlier ids.

Definition with_points (g : SplineGeometry) (ps : list point) : SplineGeometry :=
  {| points := points g ++ ps; edges := edges g |}.

Definition with_edges (g : SplineGeometry) (es : list edge) : SplineGeometry :=
  {| points := points g; edges := edges g ++ es |}.

(** A rectangle whose corners all have a recorded identifier. *)
Definition registered (r : rectangle.t) : Prop :=
  (length (rectangle.pts r) <= length (rectangle.nums r))%nat.

Definition grow (g : SplineGeometry) (ps : list point) (es : list edge)
  : SplineGeometry :=
  {| points := points g ++ ps; edges := edges g ++ es |}.

(** The loop over the rectangles as a traversal: [done] holds the rectangles
    already registered, [todo] those still to come. *)
Fixpoint rect_pass (done todo : list rectangle.t) (g : SplineGeometry)
  : result (list rectangle.t * SplineGeometry) :=
  match todo with
  | [] => Ok (done, g)
  | r :: rest =>
      '(r', g') <- rectangle.make_geometry done r g ;;
      rect_pass (done ++ [r']) rest g'
  end.

(** The loop over the circles as a traversal. *)
Fixpoint circ_pass (done todo : list circle.t) (g : SplineGeometry)
  : result (list circle.t * SplineGeometry) :=
  match todo with
  | [] => Ok (done, g)
  | c :: rest =>
      '(c', g') <- circle.make_geometry c g ;;
      circ_pass (done ++ [c']) rest g'
  end.

(** [self.dout[i] if type(self.dout) == list else self.dout] *)
Definition dout_at (self : rectangle.t) (i : nat) : result Z :=
  match rectangle.dout self with
  | PerEdge l => getitem l i
  | Scalar d => Ok d
  end.

(** What edge [i] of [self] contributes to the description: nothing when a
    prior rectangle holds its reverse, otherwise one line between the
    identifiers of its endpoints, tagged [bnd], [din] and [d]. *)
Definition edge_slot (others : list rectangle.t) (self : rectangle.t)
           (i : nat) (d : Z) (es : list edge) : Prop :=
  exists p1 p2,
    nth_error (rectangle.segs self) i = Some (p1, p2) /\
    if rectangle.scan_seg others (p1, p2) then es = []
    else exists a b,
        rectangle.get_num self p1 = Ok a /\
        rectangle.get_num self p2 = Ok b /\
        es = [mk_edge (line a b) (rectangle.bnd self) (rectangle.din self) d].

(** Number of lines of the description that join the identifiers [a] and
    [b], in either direction. *)
Definition joins (a b : nat) (e : edge) : bool :=
  match spec e with
  | line x y => (Nat.eqb x a && Nat.eqb y b) || (Nat.eqb x b && Nat.eqb y a)
  | spline3 _ _ _ => false
  end.

Definition count_line (a b : nat) (es : list edge) : nat :=
  length (filter (joins a b) es).


(** The bottom-left corner really is below and to the left of the top-right
    one. *)
Definition proper (blpt trpt : point) : Prop :=
  fst blpt < fst trpt /\ snd blpt < snd trpt.






(** No prior rectangle has [pt] among its corners. *)
Definition unowned (others : list rectangle.t) (pt : point) : bool :=
  negb (existsb (fun o => rectangle.has_pt o pt) others).

(** The identifiers [ns] are, position by position, indices of the points
    [ps] in the description. *)
Definition denotes (g : SplineGeometry) (ps : list point) (ns : list nat)
  : Prop :=
  forall i pt n,
    nth_error ps i = Some pt -> nth_error ns i = Some n ->
    nth_error (points g) n = Some pt.

(** [e] is a line between the identifiers of the endpoints of one of the
    edges of [r], with the tags of [r]. *)
Definition line_of (g : SplineGeometry) (r : rectangle.t) (e : edge) : Prop :=
  exists p1 p2 a b,
    In (p1, p2) (rectangle.segs r) /\ spec e = line a b /\
    nth_error (points g) a = Some p1 /\ nth_error (points g) b = Some p2 /\
    bc e = rectangle.bnd r /\ leftdomain e = rectangle.din r.

(** [e] is a spline over identifiers of three control points of [c], with
    the tags of [c]. *)
Definition arc_of (g : SplineGeometry) (c : circle.t) (e : edge) : Prop :=
  exists p1 pm p2 a m b,
    In p1 (circle.pts c) /\ In pm (circle.pts c) /\ In p2 (circle.pts c) /\
    spec e = spline3 a m b /\
    nth_error (points g) a = Some p1 /\ nth_error (points g) m = Some pm /\
    nth_error (points g) b = Some p2 /\
    bc e = circle.bnd c /\ leftdomain e = circle.din c /\
    rightdomain e = circle.dout c.

(** [e] is the line that [add_segs] builds for one of the edges of [r]: it
    joins the identifiers [r] returns for the two endpoints and carries the
    tags of [r]. *)
Definition line_from (r : rectangle.t) (e : edge) : Prop :=
  exists p1 p2 a b d,
    In (p1, p2) (rectangle.segs r) /\
    rectangle.get_num r p1 = Ok a /\ rectangle.get_num r p2 = Ok b /\
    e = mk_edge (line a b) (rectangle.bnd r) (rectangle.din r) d.

Definition is_line (e : edge) : Prop := exists a b, spec e = line a b.

Definition is_spline (e : edge) : Prop := exists a m b, spec e = spline3 a m b.

(** The endpoints of every edge of the rectangle are corners of it. *)
Definition closed (r : rectangle.t) : Prop :=
  Forall (fun s => In (fst s) (rectangle.pts r) /\ In (snd s) (rectangle.pts r))
         (rectangle.segs r).

(** Edge [i] exists and no prior rectangle holds its reverse. *)
Definition unsuppressed (others : list rectangle.t) (r : rectangle.t)
           (i : nat) : Prop :=
  exists seg, nth_error (rectangle.segs r) i = Some seg /\
              rectangle.scan_seg others seg = false.

(** [later] is the circle [earlier] with other identifiers. *)
Definition circ_sim (earlier later : circle.t) : Prop :=
  circle.pts later = circle.pts earlier /\
  circle.bnd later = circle.bnd earlier /\
  circle.din later = circle.din earlier /\
  circle.dout later = circle.dout earlier.

(** The builders that the interface produces: [EzGeom()] followed by any
    number of [add_rect] and [add_circle] calls. *)
Inductive built : EzGeom.t -> Prop :=
| built_init : built EzGeom.init
| built_rect : forall s blpt trpt b di d,
    built s -> built (EzGeom.add_rect s blpt trpt b di d)
| built_circle : forall s cenpt r b di d,
    built s -> built (EzGeom.add_circle s cenpt r b di d).

(** The identifier [n] that point registration records for the corner [pt]:
    the identifier that the first prior rectangle owning [pt] holds at the
    position of [pt] among its corners, or, when no prior rectangle owns
    [pt], an identifier not yet issued in [g], under which [pt] is found in
    [g']. *)
Definition corner_id (others : list rectangle.t) (g g' : SplineGeometry)
           (pt : point) (n : nat) : Prop :=
  (exists pre rect post j,
      others = pre ++ rect :: post /\
      Forall (fun o => rectangle.has_pt o pt = false) pre /\
      rectangle.has_pt rect pt = true /\
      index (rectangle.pts rect) pt = Ok j /\
      nth_error (rectangle.nums rect) j = Some n) \/
  (Forall (fun o => rectangle.has_pt o pt = false) others /\
   (length (points g) <= n)%nat /\
   nth_error (points g') n = Some pt).



(** * Proof automation *)

(** Evaluation of one call on symbolic coordinates: comparisons of equal
    coordinates are true, the others are settled by the order hypotheses. *)
Ltac decide_eqb :=
  repeat match goal with
         | |- context [Z.eqb ?x ?x] => rewrite (Z.eqb_refl x)
         | |- context [Z.eqb ?x ?y] =>
             replace (Z.eqb x y) with false
               by (symmetry; apply Z.eqb_neq; lia)
         end.

Ltac eval_here :=
  repeat (progress (cbn;
                    unfold rectangle.get_num, rectangle.has_pt,
                      rectangle.has_seg, contains, pt_eqb, seg_eqb;
                    cbn [fst snd]; decide_eqb)).

Ltac done_value :=
  match goal with
  | |- Ok _ = _ => reflexivity
  | |- Raise _ = _ => reflexivity
  end.

Ltac eval_call f :=
  match goal with
  | |- context [f ?a ?b ?c ?d] =>
      let H := fresh "Hcall" in
      eassert (H : f a b c d = _) by (eval_here; done_value);
      rewrite H; clear H
  | |- context [f ?a ?b ?c] =>
      let H := fresh "Hcall" in
      eassert (H : f a b c = _) by (eval_here; done_value);
      rewrite H; clear H
  end.

Ltac expose :=
  cbn [EzGeom.add_rect EzGeom.init EzGeom.rectangles EzGeom.circles
       EzGeom.geom app rect_pass circ_pass bind for_each length seq
       rectangle.init rectangle.append_num rectangle.pts rectangle.segs
       rectangle.nums rectangle.bnd rectangle.din rectangle.dout
       SplineGeometry_new].

Ltac run :=
  repeat (expose;
          first [ eval_call rectangle.add_point
                | eval_call rectangle.add_seg
                | progress unfold rectangle.make_geometry,
                  rectangle.add_points, rectangle.add_segs ]);
  expose.

(** * Properties *)

(** ** The result monad and the Python list operations *)

Lemma for_each_app {S I : Type} (body : S -> I -> result S)
      (r1 r2 : list I) (s : S) :
  for_each body (r1 ++ r2) s = (s' <- for_each body r1 s ;; for_each body r2 s').
Proof.
  revert s; induction r1 as [| i r1 IH]; intros s; simpl.
  - reflexivity.
  - destruct (body s i) as [s' | e]; simpl; [apply IH | reflexivity].
Qed.

Lemma pt_eqb_eq (p q : point) : pt_eqb p q = true <-> p = q.
Proof.
  destruct p as [px py], q as [qx qy]; unfold pt_eqb; simpl.
  rewrite andb_true_iff, !Z.eqb_eq.
  split; [intros [-> ->]; reflexivity | intros H; inversion H; auto].
Qed.

Lemma pt_eqb_refl (p : point) : pt_eqb p p = true.
Proof. apply pt_eqb_eq; reflexivity. Qed.

Lemma seg_eqb_eq (s t : segment) : seg_eqb s t = true <-> s = t.
Proof.
  destruct s as [s1 s2], t as [t1 t2]; unfold seg_eqb; simpl.
  rewrite andb_true_iff, !pt_eqb_eq.
  split; [intros [-> ->]; reflexivity | intros H; inversion H; auto].
Qed.

Lemma contains_In (l : list point) (pt : point) :
  contains l pt = true <-> In pt l.
Proof.
  unfold contains. rewrite existsb_exists. split.
  - intros [q [Hq He]]. apply pt_eqb_eq in He. subst; assumption.
  - intros H. exists pt. split; [assumption | apply pt_eqb_refl].
Qed.

Lemma index_absent (l : list point) (pt : point) :
  contains l pt = false -> index l pt = Raise ValueError.
Proof.
  induction l as [| q l IH]; simpl; intros H.
  - reflexivity.
  - apply orb_false_iff in H. destruct H as [Hq Hl].
    rewrite Hq, (IH Hl). reflexivity.
Qed.

Lemma index_present (l : list point) (pt : point) :
  contains l pt = true ->
  exists i, index l pt = Ok i /\ nth_error l i = Some pt /\ (i < length l)%nat.
Proof.
  induction l as [| q l IH]; simpl; intros H.
  - discriminate.
  - destruct (pt_eqb q pt) eqn:Hq.
    + exists O. apply pt_eqb_eq in Hq. subst. simpl.
      repeat split. apply Nat.lt_0_succ.
    + simpl in H. destruct (IH H) as [i [Hi [Hn Hl]]].
      exists (S i). rewrite Hi. simpl. repeat split; [assumption | lia].
Qed.

Lemma getitem_Ok {A : Type} (l : list A) (i : nat) (a : A) :
  getitem l i = Ok a <-> nth_error l i = Some a.
Proof.
  unfold getitem. destruct (nth_error l i); split; congruence.
Qed.

Lemma getitem_app1 {A : Type} (l l' : list A) (i : nat) (a : A) :
  getitem l i = Ok a -> getitem (l ++ l') i = Ok a.
Proof.
  rewrite !getitem_Ok. intros H.
  rewrite nth_error_app1; [assumption |].
  apply nth_error_Some. congruence.
Qed.

Lemma getitem_in_range {A : Type} (l : list A) (i : nat) :
  (i < length l)%nat -> exists a, getitem l i = Ok a /\ nth_error l i = Some a.
Proof.
  intros H. unfold getitem.
  destruct (nth_error l i) as [a |] eqn:E.
  - exists a. split; reflexivity.
  - apply nth_error_None in E. lia.
Qed.

(** ** The scans over the prior rectangles *)

Lemma has_seg_reverse (o : rectangle.t) (seg : segment) :
  rectangle.has_seg o seg = true <->
  In (snd seg, fst seg) (rectangle.segs o).
Proof.
  unfold rectangle.has_seg. rewrite existsb_exists. split.
  - intros [[p1 p2] [Hin He]]. apply seg_eqb_eq in He. subst seg.
    simpl. assumption.
  - intros Hin. exists (snd seg, fst seg). split; [assumption |].
    apply seg_eqb_eq. destruct seg; reflexivity.
Qed.

Lemma scan_seg_true (others : list rectangle.t) (seg : segment) :
  rectangle.scan_seg others seg = true <->
  exists rect, In rect others /\ In (snd seg, fst seg) (rectangle.segs rect).
Proof.
  induction others as [| o others IH]; simpl.
  - split; [discriminate | intros [r [[] _]]].
  - destruct (rectangle.has_seg o seg) eqn:Ho.
    + split; [intros _ | reflexivity].
      exists o. split; [left; reflexivity | apply has_seg_reverse, Ho].
    + rewrite IH. split.
      * intros [r [Hin Hr]]. exists r. split; [right|]; assumption.
      * intros [r [[-> | Hin] Hr]].
        -- apply has_seg_reverse in Hr. congruence.
        -- exists r. split; assumption.
Qed.

Lemma scan_pt_first (pre post : list rectangle.t) (rect : rectangle.t)
      (pt : point) :
  Forall (fun o => rectangle.has_pt o pt = false) pre ->
  rectangle.has_pt rect pt = true ->
  rectangle.scan_pt (pre ++ rect :: post) pt = Some rect.
Proof.
  intros Hpre Hr. induction Hpre as [| o pre Ho _ IH]; simpl.
  - rewrite Hr. reflexivity.
  - rewrite Ho. assumption.
Qed.

Lemma scan_pt_none (others : list rectangle.t) (pt : point) :
  Forall (fun o => rectangle.has_pt o pt = false) others ->
  rectangle.scan_pt others pt = None.
Proof.
  intros H. induction H as [| o others Ho _ IH]; simpl.
  - reflexivity.
  - rewrite Ho. assumption.
Qed.

(** ** Identifier lookup *)

(** C8.  Looking up a point that is not one of the rectangle's corners
    raises ([ValueError], from [list.index]) for every rectangle, registered
    or not.  For a rectangle whose corners all have a recorded identifier,
    looking up one of its corners returns the identifier recorded at the
    position of the first equal corner; so on a registered rectangle the
    lookup raises exactly when the rectangle does not own the point. *)
Theorem get_num_raises_iff_not_owned (r : rectangle.t) (pt : point) :
  (rectangle.has_pt r pt = false ->
   rectangle.get_num r pt = Raise ValueError) /\
  ((length (rectangle.pts r) <= length (rectangle.nums r))%nat ->
   (rectangle.has_pt r pt = true ->
    exists i n,
      index (rectangle.pts r) pt = Ok i /\
      nth_error (rectangle.pts r) i = Some pt /\
      nth_error (rectangle.nums r) i = Some n /\
      rectangle.get_num r pt = Ok n) /\
   ((exists e, rectangle.get_num r pt = Raise e) <->
    rectangle.has_pt r pt = false)).
Proof.
  assert (Habs : rectangle.has_pt r pt = false ->
                 rectangle.get_num r pt = Raise ValueError).
  { intros H. unfold rectangle.get_num.
    rewrite (index_absent _ _ H). reflexivity. }
  assert (Hown : (length (rectangle.pts r) <= length (rectangle.nums r))%nat ->
                 rectangle.has_pt r pt = true ->
                 exists i n,
                   index (rectangle.pts r) pt = Ok i /\
                   nth_error (rectangle.pts r) i = Some pt /\
                   nth_error (rectangle.nums r) i = Some n /\
                   rectangle.get_num r pt = Ok n).
  { intros Hreg H.
    destruct (index_present _ _ H) as [i [Hi [Hn Hl]]].
    destruct (getitem_in_range (rectangle.nums r) i) as [n [Hg Hnn]]; [lia |].
    exists i, n. unfold rectangle.get_num. rewrite Hi. simpl. auto. }
  split; [exact Habs |]. intros Hreg. split; [exact (Hown Hreg) |].
  split.
  - intros [e He]. destruct (rectangle.has_pt r pt) eqn:Hp; [| reflexivity].
    destruct (Hown Hreg eq_refl) as [i [n [_ [_ [_ Hg]]]]]. congruence.
  - intros H. exists ValueError. apply Habs, H.
Qed.

Lemma get_num_raises_iff_not_owned_witness :
  let r := rectangle.mk [(0, 0); (3, 0); (3, 2); (0, 2)]
                        [((0, 0), (3, 0)); ((3, 0), (3, 2));
                         ((3, 2), (0, 2)); ((0, 2), (0, 0))]
                        [5%nat; 6%nat; 7%nat; 8%nat] 1 1 (Scalar 0) in
  rectangle.get_num r (9, 9) = Raise ValueError /\
  (exists i n,
      index (rectangle.pts r) (3, 2) = Ok i /\
      nth_error (rectangle.pts r) i = Some (3, 2) /\
      nth_error (rectangle.nums r) i = Some n /\
      rectangle.get_num r (3, 2) = Ok n).
Proof.
  intros r. split.
  - apply (proj1 (get_num_raises_iff_not_owned r (9, 9))). reflexivity.
  - apply (proj2 (get_num_raises_iff_not_owned r (3, 2))).
    + simpl. lia.
    + reflexivity.
Defined.

(** ** Suppressed edges *)

Lemma add_seg_suppressed (others : list rectangle.t) (self : rectangle.t)
      (geom : SplineGeometry) (i : nat) (seg : segment) :
  nth_error (rectangle.segs self) i = Some seg ->
  rectangle.scan_seg others seg = true ->
  rectangle.add_seg others self geom i = Ok geom.
Proof.
  intros Hseg Hscan. unfold rectangle.add_seg.
  apply getitem_Ok in Hseg. rewrite Hseg. simpl. rewrite Hscan. reflexivity.
Qed.

Lemma seq_split_at (n i : nat) :
  (i < n)%nat -> seq 0 n = seq 0 i ++ i :: seq (S i) (n - S i).
Proof.
  intros H. replace n with (i + S (n - S i))%nat at 1 by lia.
  rewrite seq_app. simpl. reflexivity.
Qed.

(** C10.  When the exact reverse of the rectangle's edge [i] is in the edge
    list of some prior rectangle, the loop body for [i] returns the
    description it was given: no point and no edge is appended and the
    rectangle's [bnd], [din] and [dout] are not read (a [dout] list too short
    for [i] raises nothing).  The whole of [add_segs] therefore behaves as
    the same loop with [i] taken out of its range. *)
Theorem suppressed_edge_appends_nothing
        (others : list rectangle.t) (self : rectangle.t)
        (geom : SplineGeometry) (i : nat) (seg : segment) :
  nth_error (rectangle.segs self) i = Some seg ->
  (exists rect, In rect others /\
                In (snd seg, fst seg) (rectangle.segs rect)) ->
  rectangle.add_seg others self geom i = Ok geom /\
  rectangle.add_segs others self geom =
  for_each (rectangle.add_seg others self)
           (seq 0 i ++ seq (S i) (length (rectangle.segs self) - S i)) geom.
Proof.
  intros Hseg Hrev. apply scan_seg_true in Hrev.
  split; [eapply add_seg_suppressed; eassumption |].
  unfold rectangle.add_segs.
  assert (Hi : (i < length (rectangle.segs self))%nat)
    by (apply nth_error_Some; congruence).
  rewrite (seq_split_at _ _ Hi), !for_each_app.
  destruct (for_each (rectangle.add_seg others self) (seq 0 i) geom)
    as [g |]; simpl; [| reflexivity].
  rewrite (add_seg_suppressed _ _ _ _ _ Hseg Hrev). reflexivity.
Qed.

Lemma suppressed_edge_appends_nothing_witness :
  let a := rectangle.mk [(0, 0); (2, 0); (2, 1); (0, 1)]
                        [((0, 0), (2, 0)); ((2, 0), (2, 1));
                         ((2, 1), (0, 1)); ((0, 1), (0, 0))]
                        [0%nat; 1%nat; 2%nat; 3%nat] 1 1 (Scalar 0) in
  let b := rectangle.mk [(0, 1); (2, 1); (2, 2); (0, 2)]
                        [((0, 1), (2, 1)); ((2, 1), (2, 2));
                         ((2, 2), (0, 2)); ((0, 2), (0, 1))]
                        [3%nat; 2%nat; 4%nat; 5%nat] 7 8 (PerEdge []) in
  let geom := SplineGeometry_new in
  rectangle.add_seg [a] b geom 0 = Ok geom /\
  rectangle.add_segs [a] b geom =
  for_each (rectangle.add_seg [a] b) (seq 0 0 ++ seq 1 (4 - 1)) geom.
Proof.
  intros a b geom.
  apply (suppressed_edge_appends_nothing [a] b geom 0 ((0, 1), (2, 1))).
  - reflexivity.
  - exists a. split; [left; reflexivity |]. simpl. auto.
Defined.

(** ** Circles *)

Lemma append_points_spec (geom : SplineGeometry) (ps : list point) :
  circle.append_points geom ps =
  (seq (length (points geom)) (length ps),
   {| points := points geom ++ ps; edges := edges geom |}).
Proof.
  revert geom; induction ps as [| p ps IH]; intros geom; simpl.
  - rewrite app_nil_r. destruct geom; reflexivity.
  - rewrite IH. simpl. rewrite length_app, <- app_assoc. simpl.
    replace (length (points geom) + 1)%nat with (S (length (points geom)))
      by lia.
    destruct p; reflexivity.
Qed.


(** C7.  Registering a circle, whatever identifiers it holds and whatever
    the description already contains, succeeds; it appends its 8 control
    points, which receive the 8 identifiers following those already issued
    ([n .. n+7] for a description holding [n] points, so none of them was
    issued before), and then 4 [spline3] edges over the identifiers at
    offsets (0,1,2), (2,3,4), (4,5,6), (6,7,0), each with the circle's
    [bnd], [din] and [dout]. *)
Theorem circle_make_geometry_appends
        (cen : point) (r b di d : Z) (old : list nat) (geom : SplineGeometry) :
  let c := circle.set_nums (circle.init cen r b di d) old in
  let n := length (points geom) in
  exists c' geom',
    circle.make_geometry c geom = Ok (c', geom') /\
    points geom' = points geom ++ circle.pts c /\
    length (circle.pts c) = 8%nat /\
    circle.nums c' = seq n 8 /\
    Forall (fun id => (n <= id)%nat) (circle.nums c') /\
    NoDup (circle.nums c') /\
    edges geom' =
    edges geom ++
      [mk_edge (spline3 n (n + 1) (n + 2)) b di d;
       mk_edge (spline3 (n + 2) (n + 3) (n + 4)) b di d;
       mk_edge (spline3 (n + 4) (n + 5) (n + 6)) b di d;
       mk_edge (spline3 (n + 6) (n + 7) n) b di d].
Proof.
  intros c n. destruct cen as [cx cy].
  unfold circle.make_geometry. rewrite append_points_spec.
  subst c. cbn -[seq app]. fold n.
  do 2 eexists. split; [reflexivity |]. cbn -[seq].
  repeat split.
  - apply Forall_forall. intros id Hid. apply in_seq in Hid. lia.
  - apply seq_NoDup.
  - rewrite <- !app_assoc. cbn.
    repeat (f_equal; try lia).
Qed.

(** ** The builder's loop over the rectangles *)

Lemma firstn_length_app {A : Type} (l l' : list A) :
  firstn (length l) (l ++ l') = l.
Proof.
  induction l as [| a l IH]; simpl; [reflexivity | rewrite IH; reflexivity].
Qed.

Lemma nth_error_length_app {A : Type} (l l' : list A) (a : A) :
  nth_error (l ++ a :: l') (length l) = Some a.
Proof.
  induction l as [| b l IH]; simpl; [reflexivity | exact IH].
Qed.

Lemma store_length_app {A : Type} (l l' : list A) (a b : A) :
  EzGeom.store (l ++ a :: l') (length l) b = l ++ b :: l'.
Proof.
  induction l as [| c l IH]; simpl; [reflexivity | rewrite IH; reflexivity].
Qed.

Lemma rect_step_at (done rest : list rectangle.t) (r : rectangle.t)
      (cs : list circle.t) (g : SplineGeometry) :
  EzGeom.rect_step (EzGeom.mk (done ++ r :: rest) cs g) (length done) =
  ('(r', g') <- rectangle.make_geometry done r g ;;
   Ok (EzGeom.mk (done ++ r' :: rest) cs g')).
Proof.
  unfold EzGeom.rect_step, getitem. simpl.
  rewrite nth_error_length_app, firstn_length_app. simpl.
  destruct (rectangle.make_geometry done r g) as [[r' g'] | e]; simpl.
  - rewrite store_length_app. reflexivity.
  - reflexivity.
Qed.

(** ** Point registration *)

Lemma init_pts (blpt trpt : point) (b di : Z) (d : dout_t) :
  rectangle.pts (rectangle.init blpt trpt b di d) =
  [blpt; (fst trpt, snd blpt); trpt; (fst blpt, snd trpt)].
Proof. destruct blpt, trpt. reflexivity. Qed.

Lemma init_segs (blpt trpt : point) (b di : Z) (d : dout_t) :
  rectangle.segs (rectangle.init blpt trpt b di d) =
  [(blpt, (fst trpt, snd blpt)); ((fst trpt, snd blpt), trpt);
   (trpt, (fst blpt, snd trpt)); ((fst blpt, snd trpt), blpt)].
Proof. destruct blpt, trpt. reflexivity. Qed.

(** ** What registration can change

    A rectangle only ever gains identifiers; a description only ever gains
    points and edges. *)

Lemma extend_nil (self : rectangle.t) : extend self [] = self.
Proof. destruct self; unfold extend; simpl. rewrite app_nil_r. reflexivity. Qed.

Lemma extend_extend (self : rectangle.t) (ids ids' : list nat) :
  extend (extend self ids) ids' = extend self (ids ++ ids').
Proof. unfold extend; simpl. rewrite app_assoc. reflexivity. Qed.

Lemma with_points_nil (g : SplineGeometry) : with_points g [] = g.
Proof. destruct g; unfold with_points; simpl. rewrite app_nil_r. reflexivity. Qed.

Lemma with_points_app (g : SplineGeometry) (ps qs : list point) :
  with_points (with_points g ps) qs = with_points g (ps ++ qs).
Proof. unfold with_points; simpl. rewrite app_assoc. reflexivity. Qed.

Lemma with_edges_nil (g : SplineGeometry) : with_edges g [] = g.
Proof. destruct g; unfold with_edges; simpl. rewrite app_nil_r. reflexivity. Qed.

Lemma with_edges_app (g : SplineGeometry) (es fs : list edge) :
  with_edges (with_edges g es) fs = with_edges g (es ++ fs).
Proof. unfold with_edges; simpl. rewrite app_assoc. reflexivity. Qed.

Lemma sim_extend (r : rectangle.t) (ids : list nat) : sim r (extend r ids).
Proof. exists ids. reflexivity. Qed.

Lemma get_num_sim (r1 r2 : rectangle.t) (pt : point) (n : nat) :
  sim r1 r2 -> rectangle.get_num r1 pt = Ok n -> rectangle.get_num r2 pt = Ok n.
Proof.
  intros [ids ->]. unfold rectangle.get_num. simpl.
  destruct (index (rectangle.pts r1) pt) as [i |]; simpl; [| discriminate].
  apply getitem_app1.
Qed.

Lemma scan_pt_sim (o1 o2 : list rectangle.t) (pt : point) :
  Forall2 sim o1 o2 ->
  match rectangle.scan_pt o1 pt with
  | Some r1 => exists r2, rectangle.scan_pt o2 pt = Some r2 /\ sim r1 r2
  | None => rectangle.scan_pt o2 pt = None
  end.
Proof.
  intros H. induction H as [| r1 r2 o1 o2 Hr _ IH]; simpl.
  - reflexivity.
  - assert (Hp : rectangle.has_pt r2 pt = rectangle.has_pt r1 pt)
      by (destruct Hr as [ids ->]; reflexivity).
    rewrite Hp. destruct (rectangle.has_pt r1 pt).
    + exists r2. split; [reflexivity | assumption].
    + exact IH.
Qed.

Lemma scan_seg_sim (o1 o2 : list rectangle.t) (seg : segment) :
  Forall2 sim o1 o2 -> rectangle.scan_seg o2 seg = rectangle.scan_seg o1 seg.
Proof.
  intros H. induction H as [| r1 r2 o1 o2 Hr _ IH]; simpl.
  - reflexivity.
  - assert (Hp : rectangle.has_seg r2 seg = rectangle.has_seg r1 seg)
      by (destruct Hr as [ids ->]; reflexivity).
    rewrite Hp, IH. reflexivity.
Qed.

(** One corner: what the first run did, a later run does again. *)
Lemma add_point_again (o1 : list rectangle.t) (s1 s1' : rectangle.t)
      (g1 g1' : SplineGeometry) (i : nat) :
  rectangle.add_point o1 (s1, g1) i = Ok (s1', g1') ->
  exists n ps,
    s1' = extend s1 [n] /\ g1' = with_points g1 ps /\
    forall o2 s2 g2,
      Forall2 sim o1 o2 -> rectangle.pts s2 = rectangle.pts s1 ->
      exists m, rectangle.add_point o2 (s2, g2) i
                = Ok (extend s2 [m], with_points g2 ps).
Proof.
  unfold rectangle.add_point. intros H.
  destruct (getitem (rectangle.pts s1) i) as [pt |] eqn:Hpt; simpl in H;
    [| discriminate].
  destruct (rectangle.scan_pt o1 pt) as [r1 |] eqn:Hscan.
  - destruct (rectangle.get_num r1 pt) as [n |] eqn:Hn; simpl in H;
      [| discriminate].
    inversion H; subst. exists n, []. rewrite with_points_nil.
    repeat split. intros o2 s2 g2 Ho Hs. rewrite Hs, Hpt. simpl.
    pose proof (scan_pt_sim o1 o2 pt Ho) as Hsc. rewrite Hscan in Hsc.
    destruct Hsc as [r2 [-> Hr]].
    rewrite (get_num_sim _ _ _ _ Hr Hn). simpl.
    exists n. rewrite with_points_nil. reflexivity.
  - simpl in H. inversion H; subst.
    exists (length (points g1)), [pt]. repeat split.
    + unfold with_points. destruct pt; reflexivity.
    + intros o2 s2 g2 Ho Hs. rewrite Hs, Hpt. simpl.
      pose proof (scan_pt_sim o1 o2 pt Ho) as Hsc. rewrite Hscan in Hsc.
      rewrite Hsc. simpl. exists (length (points g2)).
      unfold with_points. destruct pt; reflexivity.
Qed.

Lemma add_points_loop_again (o1 : list rectangle.t) (range : list nat) :
  forall (s1 s1' : rectangle.t) (g1 g1' : SplineGeometry),
    for_each (rectangle.add_point o1) range (s1, g1) = Ok (s1', g1') ->
    exists ids ps,
      s1' = extend s1 ids /\ g1' = with_points g1 ps /\
      length ids = length range /\
      forall o2 s2 g2,
        Forall2 sim o1 o2 -> rectangle.pts s2 = rectangle.pts s1 ->
        exists ids2, for_each (rectangle.add_point o2) range (s2, g2)
                     = Ok (extend s2 ids2, with_points g2 ps).
Proof.
  induction range as [| i range IH]; intros s1 s1' g1 g1' H;
    cbn [for_each] in H.
  - inversion H; subst. exists [], [].
    rewrite extend_nil, with_points_nil. repeat split.
    intros o2 s2 g2 _ _. exists []. simpl.
    rewrite extend_nil, with_points_nil. reflexivity.
  - destruct (rectangle.add_point o1 (s1, g1) i) as [[sa ga] |] eqn:Hstep;
      simpl in H; [| discriminate].
    destruct (add_point_again _ _ _ _ _ _ Hstep) as [n [ps [-> [-> Hagain]]]].
    destruct (IH _ _ _ _ H) as [ids [qs [-> [-> [Hlen Hrest]]]]].
    exists (n :: ids), (ps ++ qs).
    rewrite extend_extend, with_points_app. cbn [app].
    repeat split; [simpl; congruence |].
    intros o2 s2 g2 Ho Hs.
    destruct (Hagain o2 s2 g2 Ho Hs) as [m Hm].
    destruct (Hrest o2 (extend s2 [m]) (with_points g2 ps) Ho)
      as [ids2 Hids2]; [simpl; assumption |].
    exists (m :: ids2). cbn [for_each]. rewrite Hm. cbn [bind].
    rewrite Hids2.
    rewrite extend_extend, with_points_app. reflexivity.
Qed.

(** One edge: what the first run did, a later run does again, with the
    same identifiers, since [nums[pts.index(p)]] reads the identifiers the
    first run recorded. *)
Lemma add_seg_again (o1 : list rectangle.t) (s1 : rectangle.t)
      (g1 g1' : SplineGeometry) (i : nat) :
  rectangle.add_seg o1 s1 g1 i = Ok g1' ->
  exists es,
    g1' = with_edges g1 es /\ (length es <= 1)%nat /\
    forall o2 s2 g2,
      Forall2 sim o1 o2 -> sim s1 s2 ->
      rectangle.add_seg o2 s2 g2 i = Ok (with_edges g2 es).
Proof.
  unfold rectangle.add_seg. intros H.
  destruct (getitem (rectangle.segs s1) i) as [seg |] eqn:Hseg; simpl in H;
    [| discriminate].
  destruct (rectangle.scan_seg o1 seg) eqn:Hscan.
  - inversion H; subst. exists []. rewrite with_edges_nil.
    repeat split; [simpl; lia |].
    intros o2 s2 g2 Ho [ids ->]. simpl. rewrite Hseg. simpl.
    rewrite (scan_seg_sim _ _ _ Ho), Hscan, with_edges_nil. reflexivity.
  - destruct seg as [p1 p2].
    destruct (index (rectangle.pts s1) p1) as [i1 |] eqn:Hi1; simpl in H;
      [| discriminate].
    destruct (getitem (rectangle.nums s1) i1) as [n1 |] eqn:Hn1; simpl in H;
      [| discriminate].
    destruct (index (rectangle.pts s1) p2) as [i2 |] eqn:Hi2; simpl in H;
      [| discriminate].
    destruct (getitem (rectangle.nums s1) i2) as [n2 |] eqn:Hn2; simpl in H;
      [| discriminate].
    destruct (match rectangle.dout s1 with
              | Scalar d => Ok d
              | PerEdge l => getitem l i
              end) as [d |] eqn:Hd; simpl in H; [| discriminate].
    inversion H; subst.
    exists [mk_edge (line n1 n2) (rectangle.bnd s1) (rectangle.din s1) d].
    repeat split; [simpl; lia |].
    intros o2 s2 g2 Ho [ids ->]. simpl. rewrite Hseg. simpl.
    rewrite (scan_seg_sim _ _ _ Ho), Hscan, Hi1. simpl.
    rewrite (getitem_app1 _ ids _ _ Hn1). simpl. rewrite Hi2. simpl.
    rewrite (getitem_app1 _ ids _ _ Hn2). simpl. rewrite Hd. reflexivity.
Qed.

Lemma add_segs_loop_again (o1 : list rectangle.t) (s1 : rectangle.t)
      (range : list nat) :
  forall (g1 g1' : SplineGeometry),
    for_each (rectangle.add_seg o1 s1) range g1 = Ok g1' ->
    exists es,
      g1' = with_edges g1 es /\ (length es <= length range)%nat /\
      forall o2 s2 g2,
        Forall2 sim o1 o2 -> sim s1 s2 ->
        for_each (rectangle.add_seg o2 s2) range g2 = Ok (with_edges g2 es).
Proof.
  induction range as [| i range IH]; intros g1 g1' H; cbn [for_each] in H.
  - inversion H; subst. exists []. rewrite with_edges_nil.
    repeat split; [simpl; lia |].
    intros o2 s2 g2 _ _. simpl. rewrite with_edges_nil. reflexivity.
  - destruct (rectangle.add_seg o1 s1 g1 i) as [ga |] eqn:Hstep;
      simpl in H; [| discriminate].
    destruct (add_seg_again _ _ _ _ _ Hstep) as [es [-> [Hl Hagain]]].
    destruct (IH _ _ H) as [fs [-> [Hl' Hrest]]].
    exists (es ++ fs). rewrite with_edges_app.
    repeat split; [rewrite length_app; simpl; lia |].
    intros o2 s2 g2 Ho Hs. cbn [for_each].
    rewrite (Hagain o2 s2 g2 Ho Hs). cbn [bind].
    rewrite (Hrest o2 s2 _ Ho Hs), with_edges_app. reflexivity.
Qed.

Lemma grow_nil (g : SplineGeometry) : grow g [] [] = g.
Proof. destruct g; unfold grow; simpl. rewrite !app_nil_r. reflexivity. Qed.

Lemma grow_grow (g : SplineGeometry) (ps qs : list point) (es fs : list edge) :
  grow (grow g ps es) qs fs = grow g (ps ++ qs) (es ++ fs).
Proof. unfold grow; simpl. rewrite !app_assoc. reflexivity. Qed.

Lemma make_geometry_again (o1 : list rectangle.t) (r r1 : rectangle.t)
      (g g1 : SplineGeometry) :
  rectangle.make_geometry o1 r g = Ok (r1, g1) ->
  exists ps es,
    sim r r1 /\ g1 = grow g ps es /\
    forall o2 G,
      Forall2 sim o1 o2 ->
      exists r2, rectangle.make_geometry o2 r1 G = Ok (r2, grow G ps es) /\
                 sim r1 r2.
Proof.
  unfold rectangle.make_geometry, rectangle.add_points, rectangle.add_segs.
  intros H.
  destruct (for_each (rectangle.add_point o1)
                     (seq 0 (length (rectangle.pts r))) (r, g))
    as [[sa ga] |] eqn:Hpts; cbn [bind] in H; [| discriminate].
  destruct (for_each (rectangle.add_seg o1 sa)
                     (seq 0 (length (rectangle.segs sa))) ga)
    as [gb |] eqn:Hsegs; cbn [bind] in H; [| discriminate].
  inversion H; subst r1 g1.
  destruct (add_points_loop_again _ _ _ _ _ _ Hpts)
    as [ids [ps [-> [-> [_ Hp]]]]].
  destruct (add_segs_loop_again _ _ _ _ _ Hsegs) as [es [-> [_ Hs]]].
  exists ps, es. split; [apply sim_extend |]. split; [reflexivity |].
  intros o2 G Ho.
  destruct (Hp o2 (extend r ids) G Ho eq_refl) as [ids2 Hids2].
  exists (extend (extend r ids) ids2). split; [| apply sim_extend].
  cbn [extend rectangle.pts rectangle.segs] in *.
  rewrite Hids2. cbn [bind].
  cbn [extend rectangle.pts rectangle.segs] in *.
  rewrite (Hs o2 (extend (extend r ids) ids2) (with_points G ps) Ho
              (sim_extend _ _)).
  reflexivity.
Qed.

Lemma rect_pass_again (todo : list rectangle.t) :
  forall (done1 out : list rectangle.t) (g1 g1' : SplineGeometry),
    rect_pass done1 todo g1 = Ok (out, g1') ->
    exists new1 ps es,
      out = done1 ++ new1 /\ g1' = grow g1 ps es /\
      forall done2 G,
        Forall2 sim done1 done2 ->
        exists new2, rect_pass done2 new1 G = Ok (done2 ++ new2, grow G ps es)
                     /\ Forall2 sim new1 new2.
Proof.
  induction todo as [| r todo IH]; intros done1 out g1 g1' H;
    cbn [rect_pass] in H.
  - inversion H; subst. exists [], [], [].
    rewrite app_nil_r, grow_nil. repeat split.
    intros done2 G _. exists []. cbn [rect_pass].
    rewrite app_nil_r, grow_nil. split; [reflexivity | constructor].
  - destruct (rectangle.make_geometry done1 r g1) as [[r1 ga] |] eqn:Hr;
      cbn [bind] in H; [| discriminate].
    destruct (make_geometry_again _ _ _ _ _ Hr) as [ps [es [_ [-> Hagain]]]].
    destruct (IH _ _ _ _ H) as [new1 [qs [fs [-> [-> Hrest]]]]].
    exists (r1 :: new1), (ps ++ qs), (es ++ fs).
    rewrite <- app_assoc, grow_grow. repeat split.
    intros done2 G Hd.
    destruct (Hagain done2 G Hd) as [r2 [Hr2 Hsim]].
    destruct (Hrest (done2 ++ [r2]) (grow G ps es)) as [new2 [Hn2 Hs2]].
    { apply Forall2_app; [assumption | repeat constructor; assumption]. }
    exists (r2 :: new2). cbn [rect_pass]. rewrite Hr2. cbn [bind].
    rewrite Hn2, <- app_assoc, grow_grow.
    split; [reflexivity | constructor; assumption].
Qed.

Lemma rect_loop_pass (todo : list rectangle.t) :
  forall (done : list rectangle.t) (cs : list circle.t) (g : SplineGeometry),
    for_each EzGeom.rect_step (seq (length done) (length todo))
             (EzGeom.mk (done ++ todo) cs g) =
    ('(rs, g') <- rect_pass done todo g ;; Ok (EzGeom.mk rs cs g')).
Proof.
  induction todo as [| r todo IH]; intros done cs g.
  - simpl. rewrite app_nil_r. reflexivity.
  - cbn [length seq for_each rect_pass]. rewrite rect_step_at.
    destruct (rectangle.make_geometry done r g) as [[r' g'] |]; cbn [bind];
      [| reflexivity].
    specialize (IH (done ++ [r']) cs g').
    rewrite length_app, <- app_assoc in IH. simpl in IH.
    replace (length done + 1)%nat with (S (length done)) in IH by lia.
    exact IH.
Qed.

Lemma circ_step_at (rs : list rectangle.t) (done rest : list circle.t)
      (c : circle.t) (g : SplineGeometry) :
  EzGeom.circ_step (EzGeom.mk rs (done ++ c :: rest) g) (length done) =
  ('(c', g') <- circle.make_geometry c g ;;
   Ok (EzGeom.mk rs (done ++ c' :: rest) g')).
Proof.
  unfold EzGeom.circ_step, getitem. simpl.
  rewrite nth_error_length_app. simpl.
  destruct (circle.make_geometry c g) as [[c' g'] | e]; simpl.
  - rewrite store_length_app. reflexivity.
  - reflexivity.
Qed.

Lemma circ_loop_pass (todo : list circle.t) :
  forall (rs : list rectangle.t) (done : list circle.t) (g : SplineGeometry),
    for_each EzGeom.circ_step (seq (length done) (length todo))
             (EzGeom.mk rs (done ++ todo) g) =
    ('(cs, g') <- circ_pass done todo g ;; Ok (EzGeom.mk rs cs g')).
Proof.
  induction todo as [| c todo IH]; intros rs done g.
  - simpl. rewrite app_nil_r. reflexivity.
  - cbn [length seq for_each circ_pass]. rewrite circ_step_at.
    destruct (circle.make_geometry c g) as [[c' g'] |]; cbn [bind];
      [| reflexivity].
    specialize (IH rs (done ++ [c']) g').
    rewrite length_app, <- app_assoc in IH. simpl in IH.
    replace (length done + 1)%nat with (S (length done)) in IH by lia.
    exact IH.
Qed.

Lemma getitem_same_length {A : Type} (l l' : list A) (i : nat) (a : A) :
  length l' = length l -> getitem l i = Ok a -> exists a', getitem l' i = Ok a'.
Proof.
  intros Hl H. apply getitem_Ok in H.
  destruct (getitem_in_range l' i) as [a' [Ha' _]].
  - rewrite Hl. apply nth_error_Some. congruence.
  - exists a'. exact Ha'.
Qed.

Lemma add_arcs_again (self : circle.t) (range : list nat) :
  forall (g g' : SplineGeometry),
    for_each (circle.add_arc self) range g = Ok g' ->
    exists es,
      g' = with_edges g es /\ length es = length range /\
      forall self2 G,
        length (circle.nums self2) = length (circle.nums self) ->
        exists es', for_each (circle.add_arc self2) range G
                    = Ok (with_edges G es') /\
                    length es' = length range.
Proof.
  induction range as [| i range IH]; intros g g' H; cbn [for_each] in H.
  - inversion H; subst. exists []. rewrite with_edges_nil. repeat split.
    intros self2 G _. exists []. cbn [for_each]. rewrite with_edges_nil.
    split; reflexivity.
  - unfold circle.add_arc at 1 in H.
    destruct (getitem (circle.nums self) (2 * i)) as [a |] eqn:Ha;
      cbn [bind] in H; [| discriminate].
    destruct (getitem (circle.nums self) (2 * i + 1)) as [m |] eqn:Hm;
      cbn [bind] in H; [| discriminate].
    destruct (getitem (circle.nums self) ((2 * i + 2) mod 8)) as [b |] eqn:Hb;
      cbn [bind] in H; [| discriminate].
    destruct (IH _ _ H) as [es [-> [Hlen Hrest]]].
    eexists (_ :: es). split; [| split].
    + unfold Append, with_edges. cbn [points edges].
      rewrite <- app_assoc. reflexivity.
    + simpl. congruence.
    + intros self2 G Hl.
      destruct (getitem_same_length _ _ _ _ Hl Ha) as [a' Ha'].
      destruct (getitem_same_length _ _ _ _ Hl Hm) as [m' Hm'].
      destruct (getitem_same_length _ _ _ _ Hl Hb) as [b' Hb'].
      cbn [for_each]. unfold circle.add_arc at 1.
      rewrite Ha', Hm', Hb'. cbn [bind].
      destruct (Hrest self2
                      (Append G (spline3 a' m' b') (circle.bnd self2)
                              (circle.din self2) (circle.dout self2)) Hl)
        as [es' [Hes' Hlen']].
      eexists (_ :: es'). rewrite Hes'. split.
      * unfold Append, with_edges. cbn [points edges].
        rewrite <- app_assoc. reflexivity.
      * simpl. congruence.
Qed.

Lemma circle_again (c c1 : circle.t) (g g1 : SplineGeometry) :
  circle.make_geometry c g = Ok (c1, g1) ->
  exists es,
    g1 = grow g (circle.pts c) es /\ circle.pts c1 = circle.pts c /\
    forall G,
      exists c2 es',
        circle.make_geometry c1 G = Ok (c2, grow G (circle.pts c) es') /\
        length es' = length es.
Proof.
  unfold circle.make_geometry. rewrite append_points_spec. intros H.
  destruct (for_each
              (circle.add_arc
                 (circle.set_nums c (seq (length (points g))
                                         (length (circle.pts c)))))
              (seq 0 4)
              {| points := points g ++ circle.pts c; edges := edges g |})
    as [gb |] eqn:Harcs; cbn [bind] in H; [| discriminate].
  inversion H; subst c1 g1.
  destruct (add_arcs_again _ _ _ _ Harcs) as [es [-> [Hlen Hagain]]].
  exists es. split; [reflexivity |]. split; [reflexivity |].
  intros G. cbn [circle.set_nums circle.pts]. rewrite append_points_spec.
  destruct (Hagain
              (circle.set_nums
                 (circle.set_nums c (seq (length (points g))
                                         (length (circle.pts c))))
                 (seq (length (points G)) (length (circle.pts c))))
              {| points := points G ++ circle.pts c; edges := edges G |})
    as [es' [Hes' Hlen']].
  { cbn [circle.set_nums circle.nums]. rewrite !length_seq. reflexivity. }
  cbn [circle.set_nums circle.pts circle.nums circle.bnd circle.din
       circle.dout] in *.
  rewrite Hes'. cbn [bind].
  eexists _, es'. split; [reflexivity | congruence].
Qed.

Lemma circ_pass_again (todo : list circle.t) :
  forall (done1 out : list circle.t) (g1 g1' : SplineGeometry),
    circ_pass done1 todo g1 = Ok (out, g1') ->
    exists new1 ps es,
      out = done1 ++ new1 /\ g1' = grow g1 ps es /\
      forall done2 G,
        exists new2 es',
          circ_pass done2 new1 G = Ok (done2 ++ new2, grow G ps es') /\
          length es' = length es.
Proof.
  induction todo as [| c todo IH]; intros done1 out g1 g1' H;
    cbn [circ_pass] in H.
  - inversion H; subst. exists [], [], [].
    rewrite app_nil_r, grow_nil. repeat split.
    intros done2 G. exists [], []. cbn [circ_pass].
    rewrite app_nil_r, grow_nil. split; reflexivity.
  - destruct (circle.make_geometry c g1) as [[c1 ga] |] eqn:Hc;
      cbn [bind] in H; [| discriminate].
    destruct (circle_again _ _ _ _ Hc) as [es [-> [_ Hagain]]].
    destruct (IH _ _ _ _ H) as [new1 [qs [fs [-> [-> Hrest]]]]].
    exists (c1 :: new1), (circle.pts c ++ qs), (es ++ fs).
    rewrite <- app_assoc, grow_grow. repeat split.
    intros done2 G.
    destruct (Hagain G) as [c2 [es' [Hc2 Hl]]].
    destruct (Hrest (done2 ++ [c2]) (grow G (circle.pts c) es'))
      as [new2 [fs' [Hn2 Hl2]]].
    exists (c2 :: new2), (es' ++ fs'). cbn [circ_pass].
    rewrite Hc2. cbn [bind]. rewrite Hn2, <- app_assoc, grow_grow.
    split; [reflexivity | rewrite !length_app; congruence].
Qed.

Lemma make_geometry_pass (self : EzGeom.t) :
  EzGeom.make_geometry self =
  ('(rs, g) <- rect_pass [] (EzGeom.rectangles self) (EzGeom.geom self) ;;
   '(cs, g') <- circ_pass [] (EzGeom.circles self) g ;;
   Ok (EzGeom.mk rs cs g')).
Proof.
  destruct self as [rs cs g]. unfold EzGeom.make_geometry.
  cbn [EzGeom.rectangles EzGeom.circles EzGeom.geom].
  pose proof (rect_loop_pass rs [] cs g) as Hr.
  cbn [length app] in Hr. rewrite Hr.
  destruct (rect_pass [] rs g) as [[rs' g'] |]; cbn [bind]; [| reflexivity].
  cbn [EzGeom.circles].
  apply (circ_loop_pass cs rs' [] g').
Qed.

(** ** Calling [make_geometry] twice *)

(** C9 (as amended).  [make_geometry] has no guard against a second call.
    Whenever a first call on a builder succeeds, a second call on the
    resulting builder succeeds as well and registers everything again: the
    points the first call appended are appended once more, in the same
    order, and as many edges as the first call appended are appended once
    more.  On a builder whose description was empty the description ends up
    holding every point twice and twice as many edges. *)
Theorem second_make_geometry_registers_again (ez ez1 : EzGeom.t) :
  EzGeom.make_geometry ez = Ok ez1 ->
  exists ez2 ps es es',
    EzGeom.geom ez1 = grow (EzGeom.geom ez) ps es /\
    EzGeom.make_geometry ez1 = Ok ez2 /\
    EzGeom.geom ez2 = grow (EzGeom.geom ez1) ps es' /\
    length es' = length es /\
    (EzGeom.geom ez = SplineGeometry_new ->
     points (EzGeom.geom ez2) =
       points (EzGeom.geom ez1) ++ points (EzGeom.geom ez1) /\
     length (edges (EzGeom.geom ez2)) =
       (2 * length (edges (EzGeom.geom ez1)))%nat).
Proof.
  intros H. rewrite make_geometry_pass in H.
  destruct (rect_pass [] (EzGeom.rectangles ez) (EzGeom.geom ez))
    as [[rs1 ga] |] eqn:Hrect; cbn [bind] in H; [| discriminate].
  destruct (circ_pass [] (EzGeom.circles ez) ga)
    as [[cs1 gb] |] eqn:Hcirc; cbn [bind] in H; [| discriminate].
  inversion H; subst ez1. clear H.
  destruct (rect_pass_again _ _ _ _ _ Hrect) as [rnew [ps [es [Hrs [-> Hr]]]]].
  destruct (circ_pass_again _ _ _ _ _ Hcirc) as [cnew [qs [fs [Hcs [-> Hc]]]]].
  cbn [app] in Hrs, Hcs. subst rs1 cs1.
  destruct (Hr [] (grow (grow (EzGeom.geom ez) ps es) qs fs))
    as [rnew2 [Hr2 _]]; [constructor |].
  destruct (Hc [] (grow (grow (grow (EzGeom.geom ez) ps es) qs fs) ps es))
    as [cnew2 [fs' [Hc2 Hlen]]].
  cbn [app] in Hr2, Hc2.
  exists (EzGeom.mk rnew2 cnew2
                    (grow (grow (grow (grow (EzGeom.geom ez) ps es) qs fs)
                                ps es) qs fs')),
    (ps ++ qs), (es ++ fs), (es ++ fs').
  cbn [EzGeom.geom]. rewrite !grow_grow.
  split; [reflexivity |]. split; [| split; [| split]].
  - rewrite make_geometry_pass.
    cbn [EzGeom.rectangles EzGeom.circles EzGeom.geom].
    rewrite <- !grow_grow. rewrite Hr2. cbn [bind]. rewrite Hc2. reflexivity.
  - reflexivity.
  - rewrite !length_app. congruence.
  - intros Hnew. rewrite Hnew. unfold grow, SplineGeometry_new.
    cbn [points edges app]. split; [reflexivity |].
    rewrite !length_app. lia.
Qed.

Lemma second_make_geometry_registers_again_witness :
  let ez := EzGeom.add_circle
              (EzGeom.add_rect EzGeom.init (0, 0) (1, 1) 5 1 (Scalar 0))
              (3, 3) 1 6 0 1 in
  exists ez1,
    EzGeom.make_geometry ez = Ok ez1 /\
    exists ez2 ps es es',
      EzGeom.geom ez1 = grow (EzGeom.geom ez) ps es /\
      EzGeom.make_geometry ez1 = Ok ez2 /\
      EzGeom.geom ez2 = grow (EzGeom.geom ez1) ps es' /\
      length es' = length es /\
      (EzGeom.geom ez = SplineGeometry_new ->
       points (EzGeom.geom ez2) =
         points (EzGeom.geom ez1) ++ points (EzGeom.geom ez1) /\
       length (edges (EzGeom.geom ez2)) =
         (2 * length (edges (EzGeom.geom ez1)))%nat).
Proof.
  intros ez. eexists. split.
  - vm_compute. reflexivity.
  - apply (second_make_geometry_registers_again ez). vm_compute. reflexivity.
Defined.

(** C9 (as stated) fails: on a builder holding one rectangle, the second
    call to [make_geometry] raises nothing; it returns a builder whose
    description holds the four corners twice and the four lines twice. *)
Lemma second_make_geometry_not_rejected :
  let ez := EzGeom.add_rect EzGeom.init (0, 0) (1, 1) 5 1 (Scalar 0) in
  exists ez1 ez2,
    EzGeom.make_geometry ez = Ok ez1 /\
    EzGeom.make_geometry ez1 = Ok ez2 /\
    ~ (exists e, EzGeom.make_geometry ez1 = Raise e) /\
    points (EzGeom.geom ez1) = [(0, 0); (1, 0); (1, 1); (0, 1)] /\
    points (EzGeom.geom ez2) =
      [(0, 0); (1, 0); (1, 1); (0, 1); (0, 0); (1, 0); (1, 1); (0, 1)] /\
    map spec (edges (EzGeom.geom ez2)) =
      [line 0 1; line 1 2; line 2 3; line 3 0;
       line 0 1; line 1 2; line 2 3; line 3 0].
Proof.
  intros ez. do 2 eexists.
  split; [vm_compute; reflexivity |].
  split; [vm_compute; reflexivity |].
  split; [intros [e He]; vm_compute in He; discriminate |].
  repeat split.
Qed.

(** ** Registration against registered rectangles *)

Lemma scan_pt_Some (others : list rectangle.t) (pt : point)
      (rect : rectangle.t) :
  rectangle.scan_pt others pt = Some rect ->
  In rect others /\ rectangle.has_pt rect pt = true.
Proof.
  induction others as [| o others IH]; simpl; intros H.
  - discriminate.
  - destruct (rectangle.has_pt o pt) eqn:Ho.
    + inversion H; subst. split; [left; reflexivity | assumption].
    + destruct (IH H) as [Hin Hp]. split; [right |]; assumption.
Qed.

Lemma get_num_registered (r : rectangle.t) (pt : point) :
  registered r -> In pt (rectangle.pts r) ->
  exists n, rectangle.get_num r pt = Ok n.
Proof.
  intros Hreg Hin. apply contains_In in Hin.
  destruct (index_present _ _ Hin) as [i [Hi [_ Hl]]].
  destruct (getitem_in_range (rectangle.nums r) i) as [n [Hn _]];
    [unfold registered in Hreg; lia |].
  exists n. unfold rectangle.get_num. rewrite Hi. exact Hn.
Qed.

Lemma add_points_loop_ok (others : list rectangle.t) (range : list nat) :
  Forall registered others ->
  forall (self : rectangle.t) (g : SplineGeometry),
    Forall (fun i => (i < length (rectangle.pts self))%nat) range ->
    exists ids ps,
      for_each (rectangle.add_point others) range (self, g)
      = Ok (extend self ids, with_points g ps) /\
      length ids = length range.
Proof.
  intros Hreg. induction range as [| i range IH]; intros self g Hrange.
  - exists [], []. rewrite extend_nil, with_points_nil. split; reflexivity.
  - inversion Hrange as [| ? ? Hi Hrest]; subst.
    destruct (getitem_in_range _ _ Hi) as [pt [Hpt _]].
    assert (Hstep : exists n ps,
               rectangle.add_point others (self, g) i
               = Ok (extend self [n], with_points g ps)).
    { unfold rectangle.add_point. rewrite Hpt. cbn [bind].
      destruct (rectangle.scan_pt others pt) as [rect |] eqn:Hscan.
      - destruct (scan_pt_Some _ _ _ Hscan) as [Hin Hp].
        destruct (get_num_registered rect pt) as [n Hn].
        + rewrite Forall_forall in Hreg. apply Hreg, Hin.
        + apply contains_In, Hp.
        + exists n, []. rewrite Hn, with_points_nil. reflexivity.
      - exists (length (points g)), [pt]. destruct pt; reflexivity. }
    destruct Hstep as [n [ps Hstep]].
    destruct (IH (extend self [n]) (with_points g ps) Hrest)
      as [ids [qs [Hloop Hlen]]].
    exists (n :: ids), (ps ++ qs). cbn [for_each]. rewrite Hstep. cbn [bind].
    rewrite Hloop, extend_extend, with_points_app.
    split; [reflexivity | simpl; congruence].
Qed.

Lemma add_points_ok (others : list rectangle.t) (self : rectangle.t)
      (g : SplineGeometry) :
  Forall registered others ->
  exists ids ps,
    rectangle.add_points others self g
    = Ok (extend self ids, with_points g ps) /\
    length ids = length (rectangle.pts self).
Proof.
  intros Hreg. unfold rectangle.add_points.
  destruct (add_points_loop_ok others (seq 0 (length (rectangle.pts self)))
                               Hreg self g) as [ids [ps [H Hl]]].
  - apply Forall_forall. intros i Hi. apply in_seq in Hi. lia.
  - exists ids, ps. rewrite length_seq in Hl. split; assumption.
Qed.

Lemma add_seg_registered (self : rectangle.t) (i : nat) (p1 p2 : point) :
  nth_error (rectangle.segs self) i = Some (p1, p2) ->
  In p1 (rectangle.pts self) -> In p2 (rectangle.pts self) ->
  registered self ->
  exists a b,
    rectangle.get_num self p1 = Ok a /\ rectangle.get_num self p2 = Ok b /\
    forall others g,
      rectangle.add_seg others self g i =
      if rectangle.scan_seg others (p1, p2) then Ok g
      else (d <- dout_at self i ;;
            Ok (Append g (line a b) (rectangle.bnd self)
                       (rectangle.din self) d)).
Proof.
  intros Hseg H1 H2 Hreg.
  destruct (get_num_registered self p1 Hreg H1) as [a Ha].
  destruct (get_num_registered self p2 Hreg H2) as [b Hb].
  exists a, b. repeat split; try assumption.
  intros others g. unfold rectangle.add_seg.
  apply getitem_Ok in Hseg. rewrite Hseg. cbn [bind].
  destruct (rectangle.scan_seg others (p1, p2)); [reflexivity |].
  unfold rectangle.get_num in Ha, Hb.
  destruct (index (rectangle.pts self) p1) as [i1 |]; [| discriminate].
  cbn [bind] in *. rewrite Ha. cbn [bind].
  destruct (index (rectangle.pts self) p2) as [i2 |]; [| discriminate].
  cbn [bind] in *. rewrite Hb. reflexivity.
Qed.

Lemma add_seg_slot (others : list rectangle.t) (self : rectangle.t)
      (i : nat) (p1 p2 : point) (d : Z) :
  nth_error (rectangle.segs self) i = Some (p1, p2) ->
  In p1 (rectangle.pts self) -> In p2 (rectangle.pts self) ->
  registered self -> dout_at self i = Ok d ->
  exists es,
    edge_slot others self i d es /\
    forall g, rectangle.add_seg others self g i = Ok (with_edges g es).
Proof.
  intros Hseg H1 H2 Hreg Hd.
  destruct (add_seg_registered self i p1 p2 Hseg H1 H2 Hreg)
    as [a [b [Ha [Hb Hstep]]]].
  destruct (rectangle.scan_seg others (p1, p2)) eqn:Hscan.
  - exists []. split.
    + exists p1, p2. rewrite Hscan. split; [assumption | reflexivity].
    + intros g. rewrite Hstep, Hscan, with_edges_nil. reflexivity.
  - exists [mk_edge (line a b) (rectangle.bnd self) (rectangle.din self) d].
    split.
    + exists p1, p2. rewrite Hscan. split; [assumption |].
      exists a, b. repeat split; assumption.
    + intros g. rewrite Hstep, Hscan, Hd. reflexivity.
Qed.

Lemma init_extend_registered (blpt trpt : point) (b di : Z) (d : dout_t)
      (ids : list nat) :
  length ids = 4%nat ->
  registered (extend (rectangle.init blpt trpt b di d) ids).
Proof.
  intros H. destruct blpt, trpt. unfold registered. simpl. lia.
Qed.

Lemma make_geometry_init_slots (blpt trpt : point) (b di : Z) (dspec : dout_t)
      (others : list rectangle.t) (g : SplineGeometry) (d0 d1 d2 d3 : Z) :
  let r := rectangle.init blpt trpt b di dspec in
  Forall registered others ->
  dout_at r 0 = Ok d0 -> dout_at r 1 = Ok d1 ->
  dout_at r 2 = Ok d2 -> dout_at r 3 = Ok d3 ->
  exists ids ps e0 e1 e2 e3,
    rectangle.make_geometry others r g
    = Ok (extend r ids, grow g ps (e0 ++ e1 ++ e2 ++ e3)) /\
    length ids = 4%nat /\
    edge_slot others (extend r ids) 0 d0 e0 /\
    edge_slot others (extend r ids) 1 d1 e1 /\
    edge_slot others (extend r ids) 2 d2 e2 /\
    edge_slot others (extend r ids) 3 d3 e3.
Proof.
  intros r Hreg H0 H1 H2 H3.
  destruct (add_points_ok others r g Hreg) as [ids [ps [Hpts Hlen]]].
  assert (Hlen4 : length ids = 4%nat).
  { rewrite Hlen. subst r. rewrite init_pts. reflexivity. }
  pose proof (init_extend_registered blpt trpt b di dspec ids Hlen4) as Hr.
  fold r in Hr.
  assert (Hp : rectangle.pts (extend r ids) =
               [blpt; (fst trpt, snd blpt); trpt; (fst blpt, snd trpt)])
    by apply init_pts.
  assert (Hs : rectangle.segs (extend r ids) =
               [(blpt, (fst trpt, snd blpt)); ((fst trpt, snd blpt), trpt);
                (trpt, (fst blpt, snd trpt)); ((fst blpt, snd trpt), blpt)])
    by apply init_segs.
  destruct (add_seg_slot others (extend r ids) 0 blpt
                         (fst trpt, snd blpt) d0) as [e0 [S0 A0]];
    [rewrite Hs; reflexivity | rewrite Hp; simpl; auto
     | rewrite Hp; simpl; auto | exact Hr | exact H0 |].
  destruct (add_seg_slot others (extend r ids) 1 (fst trpt, snd blpt)
                         trpt d1) as [e1 [S1 A1]];
    [rewrite Hs; reflexivity | rewrite Hp; simpl; auto
     | rewrite Hp; simpl; auto | exact Hr | exact H1 |].
  destruct (add_seg_slot others (extend r ids) 2 trpt
                         (fst blpt, snd trpt) d2) as [e2 [S2 A2]];
    [rewrite Hs; reflexivity | rewrite Hp; simpl; auto
     | rewrite Hp; simpl; auto | exact Hr | exact H2 |].
  destruct (add_seg_slot others (extend r ids) 3 (fst blpt, snd trpt)
                         blpt d3) as [e3 [S3 A3]];
    [rewrite Hs; reflexivity | rewrite Hp; simpl; auto
     | rewrite Hp; simpl; auto | exact Hr | exact H3 |].
  exists ids, ps, e0, e1, e2, e3.
  split; [| repeat split; assumption].
  unfold rectangle.make_geometry. rewrite Hpts. cbn [bind].
  unfold rectangle.add_segs. rewrite Hs. cbn [length seq for_each].
  rewrite A0. cbn [bind]. rewrite A1. cbn [bind].
  rewrite A2. cbn [bind]. rewrite A3. cbn [bind].
  rewrite !with_edges_app. reflexivity.
Qed.

(** ** Outer domains *)

(** C5.  A rectangle built with the list [[d0; d1; d2; d3]] and registered
    against registered prior rectangles is registered successfully; the
    edges it appends are, in this order, those of edge 0 (bottom), 1 (right),
    2 (top) and 3 (left), each either suppressed or one line carrying the
    rectangle's [bnd] and [din] and the outer domain [d_i] of its index.
    With a scalar [D] every appended line carries [D], and a rectangle with
    no prior rectangle appends all 4 lines. *)
Theorem registered_edges_outer_domain
        (blpt trpt : point) (b di : Z) (others : list rectangle.t)
        (g : SplineGeometry) :
  Forall registered others ->
  (forall d0 d1 d2 d3,
      exists self' g' e0 e1 e2 e3,
        rectangle.make_geometry
          others (rectangle.init blpt trpt b di (PerEdge [d0; d1; d2; d3])) g
        = Ok (self', g') /\
        rectangle.segs self' =
          [(blpt, (fst trpt, snd blpt)); ((fst trpt, snd blpt), trpt);
           (trpt, (fst blpt, snd trpt)); ((fst blpt, snd trpt), blpt)] /\
        rectangle.bnd self' = b /\ rectangle.din self' = di /\
        edges g' = edges g ++ e0 ++ e1 ++ e2 ++ e3 /\
        edge_slot others self' 0 d0 e0 /\ edge_slot others self' 1 d1 e1 /\
        edge_slot others self' 2 d2 e2 /\ edge_slot others self' 3 d3 e3) /\
  (forall D,
      exists self' g' e0 e1 e2 e3,
        rectangle.make_geometry
          others (rectangle.init blpt trpt b di (Scalar D)) g
        = Ok (self', g') /\
        edges g' = edges g ++ e0 ++ e1 ++ e2 ++ e3 /\
        edge_slot others self' 0 D e0 /\ edge_slot others self' 1 D e1 /\
        edge_slot others self' 2 D e2 /\ edge_slot others self' 3 D e3 /\
        Forall (fun e => rightdomain e = D) (e0 ++ e1 ++ e2 ++ e3) /\
        (others = [] -> length (e0 ++ e1 ++ e2 ++ e3) = 4%nat)).
Proof.
  intros Hreg. split.
  - intros d0 d1 d2 d3.
    destruct (make_geometry_init_slots
                blpt trpt b di (PerEdge [d0; d1; d2; d3]) others g
                d0 d1 d2 d3 Hreg)
      as [ids [ps [e0 [e1 [e2 [e3 [Hm [_ [S0 [S1 [S2 S3]]]]]]]]]]];
      try (destruct blpt, trpt; reflexivity).
    eexists _, _, e0, e1, e2, e3. split; [exact Hm |].
    split; [apply init_segs |].
    split; [destruct blpt, trpt; reflexivity |].
    split; [destruct blpt, trpt; reflexivity |].
    split; [reflexivity |]. repeat split; assumption.
  - intros D.
    destruct (make_geometry_init_slots
                blpt trpt b di (Scalar D) others g D D D D Hreg)
      as [ids [ps [e0 [e1 [e2 [e3 [Hm [_ [S0 [S1 [S2 S3]]]]]]]]]]];
      try (destruct blpt, trpt; reflexivity).
    eexists _, _, e0, e1, e2, e3. split; [exact Hm |].
    split; [reflexivity |].
    assert (Hslot : forall i es,
               edge_slot others
                         (extend (rectangle.init blpt trpt b di (Scalar D)) ids)
                         i D es ->
               Forall (fun e => rightdomain e = D) es /\
               (others = [] -> length es = 1%nat)).
    { intros i es [p1 [p2 [_ Hes]]].
      destruct (rectangle.scan_seg others (p1, p2)) eqn:Hscan.
      - subst es. split; [constructor |].
        intros ->. simpl in Hscan. discriminate.
      - destruct Hes as [a' [b' [_ [_ ->]]]].
        split; [repeat constructor | reflexivity]. }
    destruct (Hslot _ _ S0) as [F0 L0]. destruct (Hslot _ _ S1) as [F1 L1].
    destruct (Hslot _ _ S2) as [F2 L2]. destruct (Hslot _ _ S3) as [F3 L3].
    repeat split; try assumption.
    + repeat (apply Forall_app; split); assumption.
    + intros Ho. rewrite !length_app, (L0 Ho), (L1 Ho), (L2 Ho), (L3 Ho).
      reflexivity.
Qed.

Lemma registered_edges_outer_domain_witness :
  let a := rectangle.mk [(0, 0); (2, 0); (2, 1); (0, 1)]
                        [((0, 0), (2, 0)); ((2, 0), (2, 1));
                         ((2, 1), (0, 1)); ((0, 1), (0, 0))]
                        [0%nat; 1%nat; 2%nat; 3%nat] 1 1 (Scalar 0) in
  let g := {| points := [(0, 0); (2, 0); (2, 1); (0, 1)]; edges := [] |} in
  exists self' g' e0 e1 e2 e3,
    rectangle.make_geometry
      [a] (rectangle.init (0, 1) (2, 2) 7 8 (PerEdge [10; 11; 12; 13])) g
    = Ok (self', g') /\
    rectangle.segs self' =
      [((0, 1), (2, 1)); ((2, 1), (2, 2)); ((2, 2), (0, 2)); ((0, 2), (0, 1))]
    /\ rectangle.bnd self' = 7 /\ rectangle.din self' = 8 /\
    edges g' = edges g ++ e0 ++ e1 ++ e2 ++ e3 /\
    edge_slot [a] self' 0 10 e0 /\ edge_slot [a] self' 1 11 e1 /\
    edge_slot [a] self' 2 12 e2 /\ edge_slot [a] self' 3 13 e3.
Proof.
  intros a g.
  apply (proj1 (registered_edges_outer_domain (0, 1) (2, 2) 7 8 [a] g
                  ltac:(repeat constructor; unfold registered; simpl; lia))).
Defined.

(** ** The shape of the outer-domain argument *)

Lemma getitem_nth (l : list Z) (i : nat) :
  (i < length l)%nat -> getitem l i = Ok (nth i l 0).
Proof.
  intros H. unfold getitem.
  rewrite (nth_error_nth' l 0 H). reflexivity.
Qed.

(** A rectangle with no prior rectangle: every edge reaches the lookup of
    its outer domain. *)
Lemma lone_rectangle_add_segs (blpt trpt : point) (b di : Z) (dspec : dout_t)
      (g : SplineGeometry) :
  let r := rectangle.init blpt trpt b di dspec in
  exists ids ps n0 n1 n2 n3,
    rectangle.add_points [] r g = Ok (extend r ids, with_points g ps) /\
    forall g1,
      rectangle.add_segs [] (extend r ids) g1 =
      for_each (fun geom '(i, a, c) =>
                  d <- dout_at r i ;; Ok (Append geom (line a c) b di d))
               [(0, n0, n1); (1, n1, n2); (2, n2, n3); (3, n3, n0)]%nat g1.
Proof.
  intros r.
  destruct (add_points_ok [] r g (Forall_nil _)) as [ids [ps [Hpts Hlen]]].
  assert (Hlen4 : length ids = 4%nat).
  { rewrite Hlen. subst r. rewrite init_pts. reflexivity. }
  pose proof (init_extend_registered blpt trpt b di dspec ids Hlen4) as Hr.
  fold r in Hr.
  assert (Hp : rectangle.pts (extend r ids) =
               [blpt; (fst trpt, snd blpt); trpt; (fst blpt, snd trpt)])
    by apply init_pts.
  assert (Hs : rectangle.segs (extend r ids) =
               [(blpt, (fst trpt, snd blpt)); ((fst trpt, snd blpt), trpt);
                (trpt, (fst blpt, snd trpt)); ((fst blpt, snd trpt), blpt)])
    by apply init_segs.
  destruct (get_num_registered (extend r ids) blpt Hr) as [n0 N0];
    [rewrite Hp; simpl; auto |].
  destruct (get_num_registered (extend r ids) (fst trpt, snd blpt) Hr)
    as [n1 N1]; [rewrite Hp; simpl; auto |].
  destruct (get_num_registered (extend r ids) trpt Hr) as [n2 N2];
    [rewrite Hp; simpl; auto |].
  destruct (get_num_registered (extend r ids) (fst blpt, snd trpt) Hr)
    as [n3 N3]; [rewrite Hp; simpl; auto |].
  assert (Hstep : forall i p1 p2 a c,
             nth_error (rectangle.segs (extend r ids)) i = Some (p1, p2) ->
             In p1 (rectangle.pts (extend r ids)) ->
             In p2 (rectangle.pts (extend r ids)) ->
             rectangle.get_num (extend r ids) p1 = Ok a ->
             rectangle.get_num (extend r ids) p2 = Ok c ->
             forall g1,
               rectangle.add_seg [] (extend r ids) g1 i =
               (d <- dout_at r i ;; Ok (Append g1 (line a c) b di d))).
  { intros i p1 p2 a c Hseg H1 H2 Ha Hc g1.
    destruct (add_seg_registered _ _ _ _ Hseg H1 H2 Hr)
      as [a' [c' [Ha' [Hc' Heq]]]].
    rewrite Heq. cbn [rectangle.scan_seg].
    assert (a' = a) by congruence. assert (c' = c) by congruence. subst.
    subst r. destruct blpt, trpt. reflexivity. }
  exists ids, ps, n0, n1, n2, n3. split; [exact Hpts |].
  intros g1. unfold rectangle.add_segs. rewrite Hs.
  cbn [length seq for_each].
  rewrite (Hstep 0%nat blpt (fst trpt, snd blpt)
                  n0 n1); [| rewrite Hs; reflexivity
    | rewrite Hp; simpl; auto | rewrite Hp; simpl; auto | exact N0 | exact N1].
  destruct (dout_at r 0) as [d0 |]; cbn [bind]; [| reflexivity].
  rewrite (Hstep 1%nat (fst trpt, snd blpt) trpt
                  n1 n2); [| rewrite Hs; reflexivity
    | rewrite Hp; simpl; auto | rewrite Hp; simpl; auto | exact N1 | exact N2].
  destruct (dout_at r 1) as [d1 |]; cbn [bind]; [| reflexivity].
  rewrite (Hstep 2%nat trpt (fst blpt, snd trpt)
                  n2 n3); [| rewrite Hs; reflexivity
    | rewrite Hp; simpl; auto | rewrite Hp; simpl; auto | exact N2 | exact N3].
  destruct (dout_at r 2) as [d2 |]; cbn [bind]; [| reflexivity].
  rewrite (Hstep 3%nat (fst blpt, snd trpt) blpt
                  n3 n0); [| rewrite Hs; reflexivity
    | rewrite Hp; simpl; auto | rewrite Hp; simpl; auto | exact N3 | exact N0].
  reflexivity.
Qed.

(** C4 (as amended).  [rectangle.__init__] does not look at the shape of
    [dout]: it stores whatever it is given.  For a rectangle with no prior
    rectangle, point registration succeeds whatever [dout] is; a list of
    fewer than 4 elements makes segment registration raise [IndexError]; a
    list of 4 or more elements is registered without error, edge [i]
    receiving element [i] and the elements from the fifth on being
    ignored. *)
Theorem init_stores_any_outer_domain
        (blpt trpt : point) (b di : Z) (dspec : dout_t) (g : SplineGeometry) :
  let r := rectangle.init blpt trpt b di dspec in
  rectangle.dout r = dspec /\
  (exists r' g', rectangle.add_points [] r g = Ok (r', g')) /\
  (forall l, dspec = PerEdge l ->
             ((length l < 4)%nat ->
              rectangle.make_geometry [] r g = Raise IndexError) /\
             ((4 <= length l)%nat ->
              exists r' g',
                rectangle.make_geometry [] r g = Ok (r', g') /\
                map rightdomain (edges g') =
                map rightdomain (edges g) ++
                    [nth 0 l 0; nth 1 l 0; nth 2 l 0; nth 3 l 0])).
Proof.
  intros r.
  destruct (lone_rectangle_add_segs blpt trpt b di dspec g)
    as [ids [ps [n0 [n1 [n2 [n3 [Hpts Hsegs]]]]]]].
  fold r in Hpts, Hsegs.
  split; [subst r; destruct blpt, trpt; reflexivity |].
  split; [eauto |].
  intros l ->.
  assert (Hd : forall i, dout_at r i = getitem l i)
    by (intros i; subst r; destruct blpt, trpt; reflexivity).
  unfold rectangle.make_geometry. rewrite Hpts. cbn [bind].
  rewrite Hsegs. cbn [for_each]. rewrite !Hd. split; intros Hl.
  - destruct l as [| d0 [| d1 [| d2 [| d3 l]]]]; try reflexivity.
    simpl in Hl. lia.
  - rewrite !getitem_nth by lia. cbn [bind].
    do 2 eexists. split; [reflexivity |].
    cbn [Append edges with_points]. rewrite <- !app_assoc, map_app.
    reflexivity.
Qed.

Lemma init_stores_any_outer_domain_witness :
  rectangle.make_geometry
    [] (rectangle.init (0, 0) (1, 1) 5 1 (PerEdge [7; 8; 9])) SplineGeometry_new
  = Raise IndexError /\
  exists r' g',
    rectangle.make_geometry
      [] (rectangle.init (0, 0) (1, 1) 5 1 (PerEdge [7; 8; 9; 10; 11]))
      SplineGeometry_new = Ok (r', g') /\
    map rightdomain (edges g') =
    map rightdomain (edges SplineGeometry_new) ++
        [nth 0 [7; 8; 9; 10; 11] 0; nth 1 [7; 8; 9; 10; 11] 0;
         nth 2 [7; 8; 9; 10; 11] 0; nth 3 [7; 8; 9; 10; 11] 0].
Proof.
  split.
  - apply (proj2 (proj2 (init_stores_any_outer_domain
                           (0, 0) (1, 1) 5 1 (PerEdge [7; 8; 9])
                           SplineGeometry_new)) [7; 8; 9] eq_refl).
    simpl. lia.
  - apply (proj2 (proj2 (init_stores_any_outer_domain
                           (0, 0) (1, 1) 5 1 (PerEdge [7; 8; 9; 10; 11])
                           SplineGeometry_new)) [7; 8; 9; 10; 11] eq_refl).
    simpl. lia.
Defined.

(** C4 (as stated) fails: the constructor returns a rectangle for a
    2-element list, which is found out only when its third edge is
    registered, and for a 5-element list, which is never found out. *)
Lemma malformed_dout_not_caught_at_construction :
  let short := rectangle.init (0, 0) (1, 1) 5 1 (PerEdge [7; 8]) in
  let long := rectangle.init (0, 0) (1, 1) 5 1 (PerEdge [7; 8; 9; 10; 11]) in
  rectangle.dout short = PerEdge [7; 8] /\
  (exists r' g', rectangle.add_points [] short SplineGeometry_new
                 = Ok (r', g')) /\
  rectangle.make_geometry [] short SplineGeometry_new = Raise IndexError /\
  EzGeom.make_geometry
    (EzGeom.add_rect EzGeom.init (0, 0) (1, 1) 5 1 (PerEdge [7; 8]))
  = Raise IndexError /\
  rectangle.dout long = PerEdge [7; 8; 9; 10; 11] /\
  exists fin,
    EzGeom.make_geometry
      (EzGeom.add_rect EzGeom.init (0, 0) (1, 1) 5 1
                       (PerEdge [7; 8; 9; 10; 11])) = Ok fin /\
    map rightdomain (edges (EzGeom.geom fin)) = [7; 8; 9; 10].
Proof.
  intros short long.
  split; [reflexivity |].
  split; [do 2 eexists; vm_compute; reflexivity |].
  split; [reflexivity |]. split; [reflexivity |]. split; [reflexivity |].
  eexists. split; [vm_compute; reflexivity | reflexivity].
Qed.

(** ** Which edges are suppressed *)

(** C3 (as amended).  In the loop body of [add_segs], edge [i] of a
    rectangle is suppressed exactly when its exact reverse is in the edge
    list of one of the prior rectangles: then the description is returned as
    it was; otherwise exactly one line is appended, also when a prior
    rectangle holds the very same edge in the same direction.  No point is
    ever appended. *)
Theorem edge_suppressed_iff_reverse_held
        (others : list rectangle.t) (self : rectangle.t)
        (g g' : SplineGeometry) (i : nat) (seg : segment) :
  nth_error (rectangle.segs self) i = Some seg ->
  rectangle.add_seg others self g i = Ok g' ->
  points g' = points g /\
  ((exists rect, In rect others /\
                 In (snd seg, fst seg) (rectangle.segs rect)) ->
   g' = g) /\
  (~ (exists rect, In rect others /\
                   In (snd seg, fst seg) (rectangle.segs rect)) ->
   exists a b d,
     rectangle.get_num self (fst seg) = Ok a /\
     rectangle.get_num self (snd seg) = Ok b /\
     edges g' = edges g ++ [mk_edge (line a b) (rectangle.bnd self)
                                    (rectangle.din self) d]).
Proof.
  intros Hseg H. rewrite <- scan_seg_true.
  unfold rectangle.add_seg in H. apply getitem_Ok in Hseg.
  rewrite Hseg in H. cbn [bind] in H.
  destruct (rectangle.scan_seg others seg) eqn:Hscan.
  - inversion H; subst. repeat split. intros Hn. exfalso. apply Hn. reflexivity.
  - destruct seg as [p1 p2]. unfold rectangle.get_num. cbn [fst snd].
    destruct (index (rectangle.pts self) p1) as [i1 |]; cbn [bind] in *;
      [| discriminate].
    destruct (getitem (rectangle.nums self) i1) as [a |]; cbn [bind] in *;
      [| discriminate].
    destruct (index (rectangle.pts self) p2) as [i2 |]; cbn [bind] in *;
      [| discriminate].
    destruct (getitem (rectangle.nums self) i2) as [b |]; cbn [bind] in *;
      [| discriminate].
    destruct (match rectangle.dout self with
              | Scalar d => Ok d
              | PerEdge l => getitem l i
              end) as [d |]; cbn [bind] in *; [| discriminate].
    inversion H; subst. split; [reflexivity |].
    split; [discriminate |].
    intros _. exists a, b, d. repeat split.
Qed.

Lemma edge_suppressed_iff_reverse_held_witness :
  let a := rectangle.mk [(0, 0); (2, 0); (2, 1); (0, 1)]
                        [((0, 0), (2, 0)); ((2, 0), (2, 1));
                         ((2, 1), (0, 1)); ((0, 1), (0, 0))]
                        [0%nat; 1%nat; 2%nat; 3%nat] 1 1 (Scalar 0) in
  let b := rectangle.mk [(0, 1); (2, 1); (2, 2); (0, 2)]
                        [((0, 1), (2, 1)); ((2, 1), (2, 2));
                         ((2, 2), (0, 2)); ((0, 2), (0, 1))]
                        [3%nat; 2%nat; 4%nat; 5%nat] 7 8 (Scalar 9) in
  let g := {| points := [(0, 0); (2, 0); (2, 1); (0, 1); (2, 2); (0, 2)];
              edges := [] |} in
  points g = points g /\
  ((exists rect, In rect [a] /\
                 In (snd ((0, 1), (2, 1)), fst ((0, 1), (2, 1)))
                    (rectangle.segs rect)) -> g = g) /\
  (~ (exists rect, In rect [a] /\
                   In (snd ((0, 1), (2, 1)), fst ((0, 1), (2, 1)))
                      (rectangle.segs rect)) ->
   exists n m d,
     rectangle.get_num b (fst ((0, 1), (2, 1))) = Ok n /\
     rectangle.get_num b (snd ((0, 1), (2, 1))) = Ok m /\
     edges g = edges g ++ [mk_edge (line n m) (rectangle.bnd b)
                                   (rectangle.din b) d]).
Proof.
  intros a b g.
  apply (edge_suppressed_iff_reverse_held [a] b g g 0 ((0, 1), (2, 1))).
  - reflexivity.
  - reflexivity.
Defined.

(** C3 (as stated) fails: two rectangles with the same bottom edge, in the
    same direction.  The later one does not suppress it; the description
    holds the line between the identifiers 0 and 1 twice. *)
Lemma same_direction_edge_registered_twice :
  let ez := EzGeom.add_rect
              (EzGeom.add_rect EzGeom.init (0, 0) (2, 1) 1 1 (Scalar 0))
              (0, 0) (2, 2) 1 2 (Scalar 0) in
  exists first second fin,
    EzGeom.rectangles ez = [first; second] /\
    nth_error (rectangle.segs first) 0 = Some ((0, 0), (2, 0)) /\
    nth_error (rectangle.segs second) 0 = Some ((0, 0), (2, 0)) /\
    EzGeom.make_geometry ez = Ok fin /\
    map spec (edges (EzGeom.geom fin)) =
      [line 0 1; line 1 2; line 2 3; line 3 0;
       line 0 1; line 1 4; line 4 5; line 5 0] /\
    count_line 0 1 (edges (EzGeom.geom fin)) = 2%nat.
Proof.
  intros ez. do 3 eexists.
  split; [reflexivity |]. split; [reflexivity |]. split; [reflexivity |].
  split; [vm_compute; reflexivity |]. split; reflexivity.
Qed.

(** ** Two rectangles with a common edge *)









(** * Further properties of the registration *)
(** ** Closed form of point registration *)

Lemma index_Ok_nth (l : list point) (pt : point) (i : nat) :
  index l pt = Ok i -> nth_error l i = Some pt.
Proof.
  revert i; induction l as [| q l IH]; simpl; intros i H.
  - discriminate.
  - destruct (pt_eqb q pt) eqn:Hq.
    + inversion H; subst. apply pt_eqb_eq in Hq. subst. reflexivity.
    + destruct (index l pt) as [j |]; cbn [bind] in H; [| discriminate].
      inversion H; subst. simpl. apply IH. reflexivity.
Qed.

Lemma scan_pt_unowned (others : list rectangle.t) (pt : point) :
  unowned others pt =
  match rectangle.scan_pt others pt with Some _ => false | None => true end.
Proof.
  unfold unowned. induction others as [| o others IH]; simpl.
  - reflexivity.
  - destruct (rectangle.has_pt o pt); simpl; [reflexivity | exact IH].
Qed.

Lemma denotes_with_points (g : SplineGeometry) (qs : list point)
      (ps : list point) (ns : list nat) :
  denotes g ps ns -> denotes (with_points g qs) ps ns.
Proof.
  intros H i pt n Hp Hn. cbn [with_points points].
  rewrite nth_error_app1.
  - eapply H; eassumption.
  - apply nth_error_Some. rewrite (H i pt n Hp Hn). discriminate.
Qed.

Lemma denotes_grow (g : SplineGeometry) (qs : list point) (es : list edge)
      (ps : list point) (ns : list nat) :
  denotes g ps ns -> denotes (grow g qs es) ps ns.
Proof. intros H. exact (denotes_with_points g qs ps ns H). Qed.

Lemma nth_with_points (g : SplineGeometry) (qs : list point) (n : nat)
      (pt : point) :
  nth_error (points g) n = Some pt ->
  nth_error (points (with_points g qs)) n = Some pt.
Proof.
  intros H. cbn [with_points points]. rewrite nth_error_app1; [exact H |].
  apply nth_error_Some. congruence.
Qed.

Lemma get_num_denotes (g : SplineGeometry) (o : rectangle.t) (pt : point)
      (n : nat) :
  denotes g (rectangle.pts o) (rectangle.nums o) ->
  rectangle.get_num o pt = Ok n -> nth_error (points g) n = Some pt.
Proof.
  intros Hd H. unfold rectangle.get_num in H.
  destruct (index (rectangle.pts o) pt) as [i |] eqn:Hi; cbn [bind] in H;
    [| discriminate].
  apply index_Ok_nth in Hi. apply getitem_Ok in H.
  eapply Hd; eassumption.
Qed.

(** One corner. *)
Lemma add_point_profile (others : list rectangle.t) (self self' : rectangle.t)
      (g g' : SplineGeometry) (i : nat) :
  rectangle.add_point others (self, g) i = Ok (self', g') ->
  exists pt n,
    nth_error (rectangle.pts self) i = Some pt /\
    self' = extend self [n] /\
    g' = with_points g (if unowned others pt then [pt] else []) /\
    (Forall (fun o => denotes g (rectangle.pts o) (rectangle.nums o)) others ->
     nth_error (points g') n = Some pt).
Proof.
  unfold rectangle.add_point. intros H.
  destruct (getitem (rectangle.pts self) i) as [pt |] eqn:Hpt; cbn [bind] in H;
    [| discriminate].
  apply getitem_Ok in Hpt. exists pt. rewrite scan_pt_unowned.
  destruct (rectangle.scan_pt others pt) as [rect |] eqn:Hscan.
  - destruct (rectangle.get_num rect pt) as [n |] eqn:Hn; cbn [bind] in H;
      [| discriminate].
    inversion H; subst. exists n. rewrite with_points_nil.
    repeat split; [assumption |]. intros Hd.
    destruct (scan_pt_Some _ _ _ Hscan) as [Hin _].
    rewrite Forall_forall in Hd. eapply get_num_denotes; [apply Hd, Hin | exact Hn].
  - destruct pt as [x y]. cbn in H. inversion H; subst.
    exists (length (points g)).
    repeat split; [assumption |].
    intros _. cbn [with_points points].
    rewrite nth_error_app2, Nat.sub_diag by lia. reflexivity.
Qed.

Lemma add_points_loop_profile (others : list rectangle.t) (suf : list point) :
  forall (pre : list point) (self self' : rectangle.t) (g g' : SplineGeometry),
    rectangle.pts self = pre ++ suf ->
    for_each (rectangle.add_point others) (seq (length pre) (length suf))
             (self, g) = Ok (self', g') ->
    exists ids,
      self' = extend self ids /\ length ids = length suf /\
      g' = with_points g (filter (unowned others) suf) /\
      (Forall (fun o => denotes g (rectangle.pts o) (rectangle.nums o)) others ->
       Forall2 (fun pt n => nth_error (points g') n = Some pt) suf ids).
Proof.
  induction suf as [| pt suf IH]; intros pre self self' g g' Hpts H;
    cbn [length seq for_each] in H.
  - inversion H; subst. exists []. rewrite extend_nil. cbn [filter].
    rewrite with_points_nil. repeat split. intros _. constructor.
  - destruct (rectangle.add_point others (self, g) (length pre))
      as [[s1 g1] |] eqn:Hstep; cbn [bind] in H; [| discriminate].
    destruct (add_point_profile _ _ _ _ _ _ Hstep)
      as [pt' [n [Hnth [-> [-> Hden]]]]].
    rewrite Hpts, nth_error_length_app in Hnth. inversion Hnth; subst pt'.
    specialize (IH (pre ++ [pt]) (extend self [n]) self'
                   (with_points g (if unowned others pt then [pt] else []))
                   g').
    rewrite length_app in IH. cbn [length] in IH.
    replace (length pre + 1)%nat with (S (length pre)) in IH by lia.
    assert (Hpts' : rectangle.pts (extend self [n]) = (pre ++ [pt]) ++ suf).
    { cbn [extend rectangle.pts]. rewrite Hpts, <- app_assoc. reflexivity. }
    destruct (IH Hpts' H) as [ids [Hs [Hlen [Hg Hrest]]]].
    subst self' g'. clear IH.
    exists (n :: ids). rewrite extend_extend, with_points_app.
    split; [reflexivity |]. split; [simpl; congruence |].
    split.
    + cbn [filter]. destruct (unowned others pt); reflexivity.
    + intros Hd. constructor.
      * rewrite <- with_points_app. apply nth_with_points, Hden, Hd.
      * rewrite <- with_points_app. apply Hrest.
        eapply Forall_impl; [| exact Hd].
        intros o Ho. apply denotes_with_points, Ho.
Qed.

Lemma add_points_profile (others : list rectangle.t) (self self' : rectangle.t)
      (g g' : SplineGeometry) :
  rectangle.add_points others self g = Ok (self', g') ->
  exists ids,
    self' = extend self ids /\ length ids = length (rectangle.pts self) /\
    g' = with_points g (filter (unowned others) (rectangle.pts self)) /\
    (Forall (fun o => denotes g (rectangle.pts o) (rectangle.nums o)) others ->
     Forall2 (fun pt n => nth_error (points g') n = Some pt)
             (rectangle.pts self) ids).
Proof.
  intros H.
  exact (add_points_loop_profile others (rectangle.pts self) [] self self' g g'
                                 eq_refl H).
Qed.

(** ** Closed form of segment registration *)

Lemma add_seg_profile (others : list rectangle.t) (self : rectangle.t)
      (g g' : SplineGeometry) (i : nat) :
  rectangle.add_seg others self g i = Ok g' ->
  exists es, g' = with_edges g es /\ Forall (line_from self) es.
Proof.
  unfold rectangle.add_seg. intros H.
  destruct (getitem (rectangle.segs self) i) as [seg |] eqn:Hseg;
    cbn [bind] in H; [| discriminate].
  apply getitem_Ok, nth_error_In in Hseg.
  destruct (rectangle.scan_seg others seg).
  - inversion H; subst. exists []. rewrite with_edges_nil.
    split; [reflexivity | constructor].
  - destruct seg as [p1 p2].
    destruct (index (rectangle.pts self) p1) as [i1 |] eqn:Hi1;
      cbn [bind] in H; [| discriminate].
    destruct (getitem (rectangle.nums self) i1) as [a |] eqn:Ha;
      cbn [bind] in H; [| discriminate].
    destruct (index (rectangle.pts self) p2) as [i2 |] eqn:Hi2;
      cbn [bind] in H; [| discriminate].
    destruct (getitem (rectangle.nums self) i2) as [b |] eqn:Hb;
      cbn [bind] in H; [| discriminate].
    destruct (match rectangle.dout self with
              | Scalar d => Ok d
              | PerEdge l => getitem l i
              end) as [d |]; cbn [bind] in H; [| discriminate].
    inversion H; subst.
    exists [mk_edge (line a b) (rectangle.bnd self) (rectangle.din self) d].
    split; [reflexivity |]. repeat constructor.
    exists p1, p2, a, b, d. unfold rectangle.get_num.
    rewrite Hi1, Hi2. cbn [bind]. auto.
Qed.

Lemma add_segs_loop_profile (others : list rectangle.t) (self : rectangle.t)
      (range : list nat) :
  forall (g g' : SplineGeometry),
    for_each (rectangle.add_seg others self) range g = Ok g' ->
    exists es, g' = with_edges g es /\ Forall (line_from self) es.
Proof.
  induction range as [| i range IH]; intros g g' H; cbn [for_each] in H.
  - inversion H; subst. exists []. rewrite with_edges_nil.
    split; [reflexivity | constructor].
  - destruct (rectangle.add_seg others self g i) as [g1 |] eqn:Hstep;
      cbn [bind] in H; [| discriminate].
    destruct (add_seg_profile _ _ _ _ _ Hstep) as [es [-> Hes]].
    destruct (IH _ _ H) as [fs [-> Hfs]].
    exists (es ++ fs). rewrite with_edges_app.
    split; [reflexivity | apply Forall_app; split; assumption].
Qed.

Lemma line_from_line_of (g : SplineGeometry) (r : rectangle.t) (e : edge) :
  denotes g (rectangle.pts r) (rectangle.nums r) ->
  line_from r e -> line_of g r e.
Proof.
  intros Hd [p1 [p2 [a [b [d [Hin [Ha [Hb ->]]]]]]]].
  exists p1, p2, a, b. repeat split; try assumption.
  - eapply get_num_denotes; eassumption.
  - eapply get_num_denotes; eassumption.
Qed.

Lemma line_of_grow (g : SplineGeometry) (ps : list point) (es : list edge)
      (r : rectangle.t) (e : edge) :
  line_of g r e -> line_of (grow g ps es) r e.
Proof.
  intros [p1 [p2 [a [b [Hin [Hs [Ha [Hb [Hbc Hl]]]]]]]]].
  exists p1, p2, a, b. repeat split; try assumption.
  - apply (nth_with_points g ps), Ha.
  - apply (nth_with_points g ps), Hb.
Qed.

Lemma line_of_sim (g : SplineGeometry) (r r' : rectangle.t) (e : edge) :
  sim r r' -> line_of g r' e -> line_of g r e.
Proof. intros [ids ->] H. exact H. Qed.

Lemma Forall2_denotes (g : SplineGeometry) (ps : list point) (ns : list nat) :
  Forall2 (fun pt n => nth_error (points g) n = Some pt) ps ns ->
  denotes g ps ns.
Proof.
  intros H. induction H as [| pt n ps ns Hpn _ IH]; intros i q m Hq Hm.
  - destruct i; discriminate.
  - destruct i as [| i]; simpl in Hq, Hm.
    + inversion Hq; inversion Hm; subst. exact Hpn.
    + eapply IH; eassumption.
Qed.

(** What registering one rectangle does. *)
Lemma rect_make_geometry_profile (others : list rectangle.t)
      (r r' : rectangle.t) (g g' : SplineGeometry) :
  rectangle.make_geometry others r g = Ok (r', g') ->
  exists ids es,
    r' = extend r ids /\ length ids = length (rectangle.pts r) /\
    g' = grow g (filter (unowned others) (rectangle.pts r)) es /\
    Forall (line_from r') es /\
    (Forall (fun o => denotes g (rectangle.pts o) (rectangle.nums o)) others ->
     rectangle.nums r = [] ->
     denotes g' (rectangle.pts r') (rectangle.nums r')).
Proof.
  unfold rectangle.make_geometry. intros H.
  destruct (rectangle.add_points others r g) as [[s1 g1] |] eqn:Hpts;
    cbn [bind] in H; [| discriminate].
  destruct (rectangle.add_segs others s1 g1) as [g2 |] eqn:Hsegs;
    cbn [bind] in H; [| discriminate].
  inversion H; subst r' g'. clear H.
  destruct (add_points_profile _ _ _ _ _ Hpts) as [ids [-> [Hlen [-> Hden]]]].
  unfold rectangle.add_segs in Hsegs.
  destruct (add_segs_loop_profile _ _ _ _ _ Hsegs) as [es [-> Hes]].
  exists ids, es.
  split; [reflexivity |]. split; [assumption |]. split; [reflexivity |].
  split; [assumption |].
  intros Hd Hnil. cbn [extend rectangle.pts rectangle.nums].
  rewrite Hnil. cbn [app].
  exact (Forall2_denotes
           (with_points g (filter (unowned others) (rectangle.pts r)))
           _ _ (Hden Hd)).
Qed.

(** ** What registering a circle does *)

Lemma denotes_seq (g : SplineGeometry) (ps : list point) :
  denotes (with_points g ps) ps (seq (length (points g)) (length ps)).
Proof.
  intros i pt n Hp Hn. rewrite nth_error_seq in Hn.
  destruct (i <? length ps)%nat; [| discriminate]. inversion Hn; subst.
  cbn [with_points points].
  rewrite nth_error_app2 by lia.
  replace (length (points g) + i - length (points g))%nat with i by lia.
  exact Hp.
Qed.

Lemma seq_id_point (g : SplineGeometry) (ps : list point) (a : nat) :
  In a (seq (length (points g)) (length ps)) ->
  exists p, In p ps /\ nth_error (points (with_points g ps)) a = Some p.
Proof.
  intros H. apply in_seq in H. cbn [with_points points].
  destruct (nth_error ps (a - length (points g))) as [p |] eqn:Hp.
  - exists p. split; [eapply nth_error_In; exact Hp |].
    rewrite nth_error_app2 by lia. exact Hp.
  - apply nth_error_None in Hp. lia.
Qed.

Lemma add_arcs_profile (self : circle.t) (range : list nat) :
  forall (g g' : SplineGeometry),
    for_each (circle.add_arc self) range g = Ok g' ->
    exists es,
      g' = with_edges g es /\ length es = length range /\
      Forall (fun e => exists a m b,
                  e = mk_edge (spline3 a m b) (circle.bnd self)
                              (circle.din self) (circle.dout self) /\
                  In a (circle.nums self) /\ In m (circle.nums self) /\
                  In b (circle.nums self)) es.
Proof.
  induction range as [| i range IH]; intros g g' H; cbn [for_each] in H.
  - inversion H; subst. exists []. rewrite with_edges_nil.
    repeat split. constructor.
  - unfold circle.add_arc at 1 in H.
    destruct (getitem (circle.nums self) (2 * i)) as [a |] eqn:Ha;
      cbn [bind] in H; [| discriminate].
    destruct (getitem (circle.nums self) (2 * i + 1)) as [m |] eqn:Hm;
      cbn [bind] in H; [| discriminate].
    destruct (getitem (circle.nums self) ((2 * i + 2) mod 8)) as [b |] eqn:Hb;
      cbn [bind] in H; [| discriminate].
    destruct (IH _ _ H) as [es [-> [Hlen Hes]]].
    eexists (_ :: es). split; [| split].
    + unfold Append, with_edges. cbn [points edges].
      rewrite <- app_assoc. reflexivity.
    + simpl. congruence.
    + constructor; [| exact Hes].
      exists a, m, b. split; [reflexivity |].
      apply getitem_Ok, nth_error_In in Ha, Hm, Hb. auto.
Qed.

Lemma circle_make_geometry_profile (c c' : circle.t) (g g' : SplineGeometry) :
  circle.make_geometry c g = Ok (c', g') ->
  exists es,
    c' = circle.set_nums c (seq (length (points g)) (length (circle.pts c))) /\
    g' = grow g (circle.pts c) es /\ length es = 4%nat /\
    Forall (arc_of g' c) es /\
    denotes g' (circle.pts c') (circle.nums c').
Proof.
  unfold circle.make_geometry. rewrite append_points_spec. intros H.
  destruct (for_each
              (circle.add_arc
                 (circle.set_nums c (seq (length (points g))
                                         (length (circle.pts c)))))
              (seq 0 4)
              {| points := points g ++ circle.pts c; edges := edges g |})
    as [gb |] eqn:Harcs; cbn [bind] in H; [| discriminate].
  inversion H; subst c' g'. clear H.
  destruct (add_arcs_profile _ _ _ _ Harcs) as [es [-> [Hlen Hes]]].
  exists es. split; [reflexivity |]. split; [reflexivity |].
  split; [exact Hlen |]. split.
  - eapply Forall_impl; [| exact Hes].
    intros e [a [m [b [-> [Ia [Im Ib]]]]]].
    cbn [circle.set_nums circle.nums] in Ia, Im, Ib.
    destruct (seq_id_point g (circle.pts c) a Ia) as [p1 [I1 N1]].
    destruct (seq_id_point g (circle.pts c) m Im) as [pm [I2 N2]].
    destruct (seq_id_point g (circle.pts c) b Ib) as [p2 [I3 N3]].
    exists p1, pm, p2, a, m, b. repeat split; assumption.
  - exact (denotes_seq g (circle.pts c)).
Qed.

Lemma circle_make_geometry_ok (c : circle.t) (g : SplineGeometry) :
  length (circle.pts c) = 8%nat ->
  exists c' g', circle.make_geometry c g = Ok (c', g').
Proof.
  intros H. unfold circle.make_geometry. rewrite append_points_spec, H.
  cbn. do 2 eexists. reflexivity.
Qed.

(** ** The two loops of the builder *)

Lemma rect_pass_profile (todo : list rectangle.t) :
  forall (done out : list rectangle.t) (g g' : SplineGeometry),
    rect_pass done todo g = Ok (out, g') ->
    exists new ps es,
      out = done ++ new /\ Forall2 sim todo new /\ g' = grow g ps es /\
      (Forall (fun r => rectangle.nums r = []) todo ->
       Forall (fun o => denotes g (rectangle.pts o) (rectangle.nums o)) done ->
       Forall (fun o => denotes g' (rectangle.pts o) (rectangle.nums o)) out /\
       Forall (fun r => length (rectangle.nums r) = length (rectangle.pts r)) new /\
       Forall (fun e => exists r, In r todo /\ line_of g' r e) es).
Proof.
  induction todo as [| r todo IH]; intros done out g g' H;
    cbn [rect_pass] in H.
  - inversion H; subst. exists [], [], [].
    rewrite app_nil_r, grow_nil.
    split; [reflexivity |]. split; [constructor |]. split; [reflexivity |].
    intros _ Hd. split; [exact Hd |]. split; constructor.
  - destruct (rectangle.make_geometry done r g) as [[r1 g1] |] eqn:Hr;
      cbn [bind] in H; [| discriminate].
    destruct (rect_make_geometry_profile _ _ _ _ _ Hr)
      as [ids [es [-> [Hlen [-> [Hes Hden]]]]]].
    destruct (IH _ _ _ _ H) as [new [qs [fs [-> [Hsim [-> Hrest]]]]]].
    exists (extend r ids :: new),
      (filter (unowned done) (rectangle.pts r) ++ qs), (es ++ fs).
    rewrite <- app_assoc, grow_grow.
    split; [reflexivity |].
    split; [constructor; [apply sim_extend | exact Hsim] |].
    split; [reflexivity |].
    intros Hnil Hd. inversion Hnil as [| ? ? Hr0 Hnil']; subst.
    specialize (Hden Hd Hr0).
    destruct Hrest as [Hout [Hnew Hfs]]; [exact Hnil' | |].
    { apply Forall_app. split.
      - eapply Forall_impl; [| exact Hd]. intros o Ho. apply denotes_grow, Ho.
      - repeat constructor. exact Hden. }
    rewrite <- grow_grow in *.
    split; [rewrite <- app_assoc in Hout; exact Hout |].
    split.
    + constructor; [| exact Hnew].
      cbn [extend rectangle.nums rectangle.pts]. rewrite Hr0. cbn [app].
      exact Hlen.
    + apply Forall_app. split.
      * eapply Forall_impl; [| exact Hes].
        intros e He. exists r. split; [left; reflexivity |].
        apply (line_of_sim _ r (extend r ids)); [apply sim_extend |].
        apply line_of_grow, line_from_line_of; assumption.
      * eapply Forall_impl; [| exact Hfs].
        intros e [r' [Hin Hl]]. exists r'. split; [right |]; assumption.
Qed.

Lemma arc_of_grow (g : SplineGeometry) (ps : list point) (es : list edge)
      (c : circle.t) (e : edge) :
  arc_of g c e -> arc_of (grow g ps es) c e.
Proof.
  intros [p1 [pm [p2 [a [m [b [I1 [I2 [I3 [Hs [N1 [N2 [N3 Ht]]]]]]]]]]]]].
  exists p1, pm, p2, a, m, b. repeat split; try assumption; try apply Ht.
  - apply (nth_with_points g ps), N1.
  - apply (nth_with_points g ps), N2.
  - apply (nth_with_points g ps), N3.
Qed.

Lemma circ_pass_profile (todo : list circle.t) :
  forall (done out : list circle.t) (g g' : SplineGeometry),
    circ_pass done todo g = Ok (out, g') ->
    exists new es,
      out = done ++ new /\ Forall2 circ_sim todo new /\
      g' = grow g (concat (map circle.pts todo)) es /\
      length es = (4 * length todo)%nat /\
      Forall (fun c => length (circle.nums c) = length (circle.pts c) /\
                       denotes g' (circle.pts c) (circle.nums c)) new /\
      Forall (fun e => exists c, In c todo /\ arc_of g' c e) es.
Proof.
  induction todo as [| c todo IH]; intros done out g g' H;
    cbn [circ_pass] in H.
  - inversion H; subst. exists [], []. cbn [map concat].
    rewrite app_nil_r, grow_nil. repeat split; constructor.
  - destruct (circle.make_geometry c g) as [[c1 g1] |] eqn:Hc;
      cbn [bind] in H; [| discriminate].
    destruct (circle_make_geometry_profile _ _ _ _ Hc)
      as [es [-> [-> [Hlen [Hes Hden]]]]].
    destruct (IH _ _ _ _ H) as [new [fs [-> [Hsim [-> [Hl [Hnew Hfs]]]]]]].
    eexists (_ :: new), (es ++ fs).
    rewrite <- app_assoc, grow_grow. cbn [map concat].
    split; [reflexivity |].
    split; [constructor; [repeat split | exact Hsim] |].
    split; [reflexivity |].
    split; [rewrite length_app; simpl; lia |].
    rewrite <- grow_grow. split.
    + constructor; [| exact Hnew]. split.
      * cbn [circle.set_nums circle.nums circle.pts]. apply length_seq.
      * apply denotes_grow, Hden.
    + apply Forall_app. split.
      * eapply Forall_impl; [| exact Hes].
        intros e He. exists c. split; [left; reflexivity |].
        apply arc_of_grow, He.
      * eapply Forall_impl; [| exact Hfs].
        intros e [c' [Hin Ha]]. exists c'. split; [right |]; assumption.
Qed.

Lemma rect_pass_lines (todo : list rectangle.t) :
  forall (done out : list rectangle.t) (g g' : SplineGeometry),
    rect_pass done todo g = Ok (out, g') ->
    exists ps es, g' = grow g ps es /\ Forall is_line es.
Proof.
  induction todo as [| r todo IH]; intros done out g g' H;
    cbn [rect_pass] in H.
  - inversion H; subst. exists [], []. rewrite grow_nil.
    split; [reflexivity | constructor].
  - destruct (rectangle.make_geometry done r g) as [[r1 g1] |] eqn:Hr;
      cbn [bind] in H; [| discriminate].
    destruct (rect_make_geometry_profile _ _ _ _ _ Hr)
      as [ids [es [_ [_ [-> [Hes _]]]]]].
    destruct (IH _ _ _ _ H) as [qs [fs [-> Hfs]]].
    eexists _, (es ++ fs). rewrite grow_grow. split; [reflexivity |].
    apply Forall_app. split; [| exact Hfs].
    eapply Forall_impl; [| exact Hes].
    intros e [p1 [p2 [a [b [d [_ [_ [_ ->]]]]]]]]. exists a, b. reflexivity.
Qed.

(** ** Properties of the whole registration *)

(** X1.  Against registered prior rectangles, [add_points] succeeds for any
    rectangle: it records one identifier per corner and appends to the
    description exactly the corners that no prior rectangle owns, in corner
    order; no edge is touched. *)
Theorem add_points_appends_unowned_corners
        (others : list rectangle.t) (self : rectangle.t) (g : SplineGeometry) :
  Forall registered others ->
  exists ids,
    rectangle.add_points others self g
    = Ok (extend self ids,
          {| points := points g ++
                         filter (unowned others) (rectangle.pts self);
             edges := edges g |}) /\
    length ids = length (rectangle.pts self).
Proof.
  intros Hreg.
  destruct (add_points_ok others self g Hreg) as [ids0 [ps [H _]]].
  destruct (add_points_profile _ _ _ _ _ H) as [ids [Hs [Hlen [Hg _]]]].
  exists ids. rewrite H, Hs, Hg. split; [reflexivity | exact Hlen].
Qed.

Lemma add_points_appends_unowned_corners_witness :
  let a := rectangle.mk [(0, 0); (2, 0); (2, 1); (0, 1)]
                        [((0, 0), (2, 0)); ((2, 0), (2, 1));
                         ((2, 1), (0, 1)); ((0, 1), (0, 0))]
                        [0%nat; 1%nat; 2%nat; 3%nat] 1 1 (Scalar 0) in
  let b := rectangle.init (0, 1) (2, 2) 7 8 (Scalar 0) in
  let g := {| points := [(0, 0); (2, 0); (2, 1); (0, 1)]; edges := [] |} in
  exists ids,
    rectangle.add_points [a] b g
    = Ok (extend b ids,
          {| points := points g ++ filter (unowned [a]) (rectangle.pts b);
             edges := edges g |}) /\
    length ids = length (rectangle.pts b).
Proof.
  intros a b g.
  apply (add_points_appends_unowned_corners [a] b g).
  constructor; [unfold registered; simpl; lia | constructor].
Defined.

(** X2.  [make_geometry] only adds: every rectangle keeps its corners,
    edges, tags and the identifiers it already had (it gains identifiers),
    every circle keeps its control points and tags, the two lists keep their
    lengths and order, and the description keeps the points and edges it
    held, in place, new ones being appended behind them. *)
Theorem make_geometry_only_appends (ez fin : EzGeom.t) :
  EzGeom.make_geometry ez = Ok fin ->
  Forall2 sim (EzGeom.rectangles ez) (EzGeom.rectangles fin) /\
  Forall2 circ_sim (EzGeom.circles ez) (EzGeom.circles fin) /\
  exists ps es, EzGeom.geom fin = grow (EzGeom.geom ez) ps es.
Proof.
  intros H. rewrite make_geometry_pass in H.
  destruct (rect_pass [] (EzGeom.rectangles ez) (EzGeom.geom ez))
    as [[rs1 ga] |] eqn:Hrect; cbn [bind] in H; [| discriminate].
  destruct (circ_pass [] (EzGeom.circles ez) ga)
    as [[cs1 gb] |] eqn:Hcirc; cbn [bind] in H; [| discriminate].
  inversion H; subst fin. clear H.
  destruct (rect_pass_profile _ _ _ _ _ Hrect)
    as [rnew [ps [es [-> [Hsim [-> _]]]]]].
  destruct (circ_pass_profile _ _ _ _ _ Hcirc)
    as [cnew [fs [-> [Hcsim [-> _]]]]].
  cbn [app EzGeom.rectangles EzGeom.circles EzGeom.geom].
  split; [exact Hsim |]. split; [exact Hcsim |].
  eexists _, _. apply grow_grow.
Qed.

Lemma make_geometry_only_appends_witness :
  let ez := EzGeom.add_circle
              (EzGeom.add_rect EzGeom.init (0, 0) (1, 1) 5 1 (Scalar 0))
              (3, 3) 1 6 0 1 in
  exists fin,
    EzGeom.make_geometry ez = Ok fin /\
    Forall2 sim (EzGeom.rectangles ez) (EzGeom.rectangles fin) /\
    Forall2 circ_sim (EzGeom.circles ez) (EzGeom.circles fin) /\
    exists ps es, EzGeom.geom fin = grow (EzGeom.geom ez) ps es.
Proof.
  intros ez. eexists. split.
  - vm_compute. reflexivity.
  - apply (make_geometry_only_appends ez). vm_compute. reflexivity.
Defined.

(** X3.  On a builder none of whose rectangles is registered yet, a
    successful [make_geometry] leaves every rectangle with one identifier
    per corner and every circle with one identifier per control point, and
    each identifier is the index, in the final description, of the very
    point it was recorded for. *)
Theorem identifiers_denote_their_points (ez fin : EzGeom.t) :
  Forall (fun r => rectangle.nums r = []) (EzGeom.rectangles ez) ->
  EzGeom.make_geometry ez = Ok fin ->
  Forall (fun r => length (rectangle.nums r) = length (rectangle.pts r) /\
                   denotes (EzGeom.geom fin) (rectangle.pts r)
                           (rectangle.nums r))
         (EzGeom.rectangles fin) /\
  Forall (fun c => length (circle.nums c) = length (circle.pts c) /\
                   denotes (EzGeom.geom fin) (circle.pts c) (circle.nums c))
         (EzGeom.circles fin).
Proof.
  intros Hnil H. rewrite make_geometry_pass in H.
  destruct (rect_pass [] (EzGeom.rectangles ez) (EzGeom.geom ez))
    as [[rs1 ga] |] eqn:Hrect; cbn [bind] in H; [| discriminate].
  destruct (circ_pass [] (EzGeom.circles ez) ga)
    as [[cs1 gb] |] eqn:Hcirc; cbn [bind] in H; [| discriminate].
  inversion H; subst fin. clear H.
  destruct (rect_pass_profile _ _ _ _ _ Hrect)
    as [rnew [ps [es [-> [_ [-> Hr]]]]]].
  destruct (Hr Hnil (Forall_nil _)) as [Hden [Hlen _]].
  destruct (circ_pass_profile _ _ _ _ _ Hcirc)
    as [cnew [fs [-> [_ [-> [_ [Hc _]]]]]]].
  cbn [app EzGeom.rectangles EzGeom.circles EzGeom.geom] in *.
  split; [| exact Hc].
  rewrite Forall_forall in *. intros r Hin. split.
  - apply Hlen, Hin.
  - apply denotes_grow, Hden, Hin.
Qed.

Lemma identifiers_denote_their_points_witness :
  let ez := EzGeom.add_rect
              (EzGeom.add_circle
                 (EzGeom.add_rect EzGeom.init (0, 0) (2, 1) 5 1 (Scalar 0))
                 (3, 3) 1 6 0 1)
              (0, 1) (2, 2) 5 2 (Scalar 0) in
  exists fin,
    EzGeom.make_geometry ez = Ok fin /\
    Forall (fun r => length (rectangle.nums r) = length (rectangle.pts r) /\
                     denotes (EzGeom.geom fin) (rectangle.pts r)
                             (rectangle.nums r))
           (EzGeom.rectangles fin) /\
    Forall (fun c => length (circle.nums c) = length (circle.pts c) /\
                     denotes (EzGeom.geom fin) (circle.pts c) (circle.nums c))
           (EzGeom.circles fin).
Proof.
  intros ez. eexists. split.
  - vm_compute. reflexivity.
  - apply (identifiers_denote_their_points ez).
    + repeat constructor.
    + vm_compute. reflexivity.
Defined.

(** X4.  On a builder none of whose rectangles is registered yet, every edge
    that a successful [make_geometry] appends is accounted for by a shape of
    the builder: it is a line between the identifiers of the two endpoints
    of an edge of one of the rectangles, carrying that rectangle's [bnd] and
    [din], or a spline over the identifiers of three control points of one
    of the circles, carrying that circle's [bnd], [din] and [dout].  In
    particular no edge refers to an identifier that was not issued. *)
Theorem appended_edges_belong_to_shapes (ez fin : EzGeom.t) :
  Forall (fun r => rectangle.nums r = []) (EzGeom.rectangles ez) ->
  EzGeom.make_geometry ez = Ok fin ->
  exists ps es,
    EzGeom.geom fin = grow (EzGeom.geom ez) ps es /\
    Forall (fun e =>
              (exists r, In r (EzGeom.rectangles ez) /\
                         line_of (EzGeom.geom fin) r e) \/
              (exists c, In c (EzGeom.circles ez) /\
                         arc_of (EzGeom.geom fin) c e)) es.
Proof.
  intros Hnil H. rewrite make_geometry_pass in H.
  destruct (rect_pass [] (EzGeom.rectangles ez) (EzGeom.geom ez))
    as [[rs1 ga] |] eqn:Hrect; cbn [bind] in H; [| discriminate].
  destruct (circ_pass [] (EzGeom.circles ez) ga)
    as [[cs1 gb] |] eqn:Hcirc; cbn [bind] in H; [| discriminate].
  inversion H; subst fin. clear H.
  destruct (rect_pass_profile _ _ _ _ _ Hrect)
    as [rnew [ps [es [-> [_ [-> Hr]]]]]].
  destruct (Hr Hnil (Forall_nil _)) as [_ [_ Hlines]].
  destruct (circ_pass_profile _ _ _ _ _ Hcirc)
    as [cnew [fs [-> [_ [-> [_ [_ Harcs]]]]]]].
  cbn [EzGeom.geom]. eexists _, _. split; [apply grow_grow |].
  apply Forall_app. split.
  - eapply Forall_impl; [| exact Hlines].
    intros e [r [Hin Hl]]. left. exists r. split; [exact Hin |].
    apply line_of_grow, Hl.
  - eapply Forall_impl; [| exact Harcs].
    intros e He. right. exact He.
Qed.

Lemma appended_edges_belong_to_shapes_witness :
  let ez := EzGeom.add_rect
              (EzGeom.add_circle
                 (EzGeom.add_rect EzGeom.init (0, 0) (2, 1) 5 1 (Scalar 0))
                 (3, 3) 1 6 0 1)
              (0, 1) (2, 2) 5 2 (Scalar 0) in
  exists fin,
    EzGeom.make_geometry ez = Ok fin /\
    exists ps es,
      EzGeom.geom fin = grow (EzGeom.geom ez) ps es /\
      Forall (fun e =>
                (exists r, In r (EzGeom.rectangles ez) /\
                           line_of (EzGeom.geom fin) r e) \/
                (exists c, In c (EzGeom.circles ez) /\
                           arc_of (EzGeom.geom fin) c e)) es.
Proof.
  intros ez. eexists. split.
  - vm_compute. reflexivity.
  - apply (appended_edges_belong_to_shapes ez).
    + repeat constructor.
    + vm_compute. reflexivity.
Defined.

(** X5.  Whatever the order in which rectangles and circles were added, a
    successful [make_geometry] appends first what the rectangles contribute
    (points, and lines only) and then what the circles contribute: the
    control points of every circle, all of them, in list order, and 4
    splines per circle. *)
Theorem rectangles_before_circles (ez fin : EzGeom.t) :
  EzGeom.make_geometry ez = Ok fin ->
  exists rp re ce,
    points (EzGeom.geom fin) =
      points (EzGeom.geom ez) ++ rp ++
      concat (map circle.pts (EzGeom.circles ez)) /\
    edges (EzGeom.geom fin) = edges (EzGeom.geom ez) ++ re ++ ce /\
    Forall is_line re /\ Forall is_spline ce /\
    length ce = (4 * length (EzGeom.circles ez))%nat.
Proof.
  intros H. rewrite make_geometry_pass in H.
  destruct (rect_pass [] (EzGeom.rectangles ez) (EzGeom.geom ez))
    as [[rs1 ga] |] eqn:Hrect; cbn [bind] in H; [| discriminate].
  destruct (circ_pass [] (EzGeom.circles ez) ga)
    as [[cs1 gb] |] eqn:Hcirc; cbn [bind] in H; [| discriminate].
  inversion H; subst fin. clear H.
  destruct (rect_pass_lines _ _ _ _ _ Hrect) as [ps [es [-> Hlines]]].
  destruct (circ_pass_profile _ _ _ _ _ Hcirc)
    as [cnew [fs [-> [_ [-> [Hlen [_ Harcs]]]]]]].
  exists ps, es, fs. cbn [EzGeom.geom grow points edges].
  rewrite <- !app_assoc.
  split; [reflexivity |]. split; [reflexivity |].
  split; [exact Hlines |]. split; [| exact Hlen].
  eapply Forall_impl; [| exact Harcs].
  intros e [c [_ [p1 [pm [p2 [a [m [b [_ [_ [_ [Hs _]]]]]]]]]]]].
  exists a, m, b. exact Hs.
Qed.

Lemma rectangles_before_circles_witness :
  let ez := EzGeom.add_rect
              (EzGeom.add_circle
                 (EzGeom.add_rect EzGeom.init (0, 0) (2, 1) 5 1 (Scalar 0))
                 (3, 3) 1 6 0 1)
              (0, 1) (2, 2) 5 2 (Scalar 0) in
  exists fin,
    EzGeom.make_geometry ez = Ok fin /\
    exists rp re ce,
      points (EzGeom.geom fin) =
        points (EzGeom.geom ez) ++ rp ++
        concat (map circle.pts (EzGeom.circles ez)) /\
      edges (EzGeom.geom fin) = edges (EzGeom.geom ez) ++ re ++ ce /\
      Forall is_line re /\ Forall is_spline ce /\
      length ce = (4 * length (EzGeom.circles ez))%nat.
Proof.
  intros ez. eexists. split.
  - vm_compute. reflexivity.
  - apply (rectangles_before_circles ez). vm_compute. reflexivity.
Defined.

(** ** Every corner is registered once *)

Lemma unowned_false (others : list rectangle.t) (p : point) :
  unowned others p = false <->
  exists o, In o others /\ In p (rectangle.pts o).
Proof.
  unfold unowned. rewrite negb_false_iff, existsb_exists.
  split; intros [o [Hin Hp]]; exists o; (split; [exact Hin |]);
    apply contains_In; exact Hp.
Qed.

Lemma sim_owner (l l' : list rectangle.t) (p : point) :
  Forall2 sim l l' ->
  (exists o, In o l' /\ In p (rectangle.pts o)) <->
  (exists r, In r l /\ In p (rectangle.pts r)).
Proof.
  intros H. induction H as [| r o l l' Hs _ IH].
  - split; intros [x [[] _]].
  - destruct Hs as [ids ->]. split.
    + intros [x [[<- | Hin] Hp]].
      * exists r. split; [left; reflexivity | exact Hp].
      * destruct (proj1 IH (ex_intro _ x (conj Hin Hp))) as [y [Hy Hpy]].
        exists y. split; [right |]; assumption.
    + intros [x [[<- | Hin] Hp]].
      * exists (extend r ids). split; [left; reflexivity | exact Hp].
      * destruct (proj2 IH (ex_intro _ x (conj Hin Hp))) as [y [Hy Hpy]].
        exists y. split; [right |]; assumption.
Qed.

Lemma rect_pass_nodup (todo : list rectangle.t) :
  forall (done out : list rectangle.t) (g g' : SplineGeometry),
    Forall (fun r => NoDup (rectangle.pts r)) todo ->
    NoDup (points g) ->
    (forall p, In p (points g) <->
               exists o, In o done /\ In p (rectangle.pts o)) ->
    rect_pass done todo g = Ok (out, g') ->
    NoDup (points g') /\
    (forall p, In p (points g') <->
               exists o, In o out /\ In p (rectangle.pts o)).
Proof.
  induction todo as [| r todo IH]; intros done out g g' Hnd Hg Hown H;
    cbn [rect_pass] in H.
  - inversion H; subst. split; assumption.
  - destruct (rectangle.make_geometry done r g) as [[r1 g1] |] eqn:Hr;
      cbn [bind] in H; [| discriminate].
    destruct (rect_make_geometry_profile _ _ _ _ _ Hr)
      as [ids [es [-> [_ [-> _]]]]].
    inversion Hnd as [| ? ? Hr0 Hnd']; subst.
    refine (IH _ _ _ _ Hnd' _ _ H); cbn [grow points].
    + apply NoDup_app; [exact Hg | apply NoDup_filter, Hr0 |].
      intros p Hp Hf. apply filter_In in Hf. destruct Hf as [_ Hu].
      apply Hown, unowned_false in Hp. congruence.
    + intros p. rewrite in_app_iff, filter_In. split.
      * intros [Hp | [Hp _]].
        -- apply Hown in Hp. destruct Hp as [o [Hin Hpo]].
           exists o. split; [apply in_or_app; left |]; assumption.
        -- exists (extend r ids). split; [| exact Hp].
           apply in_or_app. right. left. reflexivity.
      * intros [o [Hin Hpo]]. apply in_app_or in Hin.
        destruct Hin as [Hin | [<- | []]].
        -- left. apply Hown. exists o. split; assumption.
        -- cbn [extend rectangle.pts] in Hpo.
           destruct (unowned done p) eqn:Hu.
           ++ right. split; [exact Hpo | reflexivity].
           ++ left. apply Hown, unowned_false, Hu.
Qed.

(** X6.  On a builder whose description holds no point yet and whose
    rectangles each have four different corners, a successful
    [make_geometry] registers every corner of every rectangle exactly once,
    however many rectangles share it: the points that precede those of the
    circles are pairwise different, and they are exactly the corners of the
    rectangles. *)
Theorem corners_registered_once (ez fin : EzGeom.t) :
  Forall (fun r => NoDup (rectangle.pts r)) (EzGeom.rectangles ez) ->
  points (EzGeom.geom ez) = [] ->
  EzGeom.make_geometry ez = Ok fin ->
  exists rp,
    points (EzGeom.geom fin) =
      rp ++ concat (map circle.pts (EzGeom.circles ez)) /\
    NoDup rp /\
    (forall p, In p rp <->
               exists r, In r (EzGeom.rectangles ez) /\
                         In p (rectangle.pts r)).
Proof.
  intros Hnd Hempty H. rewrite make_geometry_pass in H.
  destruct (rect_pass [] (EzGeom.rectangles ez) (EzGeom.geom ez))
    as [[rs1 ga] |] eqn:Hrect; cbn [bind] in H; [| discriminate].
  destruct (circ_pass [] (EzGeom.circles ez) ga)
    as [[cs1 gb] |] eqn:Hcirc; cbn [bind] in H; [| discriminate].
  inversion H; subst fin. clear H.
  assert (Hnodup : NoDup (points ga) /\
                   (forall p, In p (points ga) <->
                              exists o, In o rs1 /\ In p (rectangle.pts o))).
  { apply (rect_pass_nodup _ _ _ _ _ Hnd) with (3 := Hrect).
    - rewrite Hempty. constructor.
    - intros p. rewrite Hempty. split; [intros [] | intros [o [[] _]]]. }
  destruct Hnodup as [Hga Hown].
  destruct (rect_pass_profile _ _ _ _ _ Hrect)
    as [rnew [ps [es [Hout [Hsim _]]]]].
  cbn [app] in Hout. subst rs1.
  destruct (circ_pass_profile _ _ _ _ _ Hcirc)
    as [cnew [fs [_ [_ [-> _]]]]].
  exists (points ga). cbn [EzGeom.geom grow points].
  split; [reflexivity |]. split; [exact Hga |].
  intros p. rewrite Hown. apply sim_owner, Hsim.
Qed.

Lemma corners_registered_once_witness :
  let ez := EzGeom.add_rect
              (EzGeom.add_circle
                 (EzGeom.add_rect EzGeom.init (0, 0) (2, 1) 5 1 (Scalar 0))
                 (3, 3) 1 6 0 1)
              (0, 1) (2, 2) 5 2 (Scalar 0) in
  exists fin,
    EzGeom.make_geometry ez = Ok fin /\
    exists rp,
      points (EzGeom.geom fin) =
        rp ++ concat (map circle.pts (EzGeom.circles ez)) /\
      NoDup rp /\
      (forall p, In p rp <->
                 exists r, In r (EzGeom.rectangles ez) /\
                           In p (rectangle.pts r)).
Proof.
  intros ez. eexists. split.
  - vm_compute. reflexivity.
  - apply (corners_registered_once ez).
    + repeat constructor; simpl; intuition discriminate.
    + reflexivity.
    + vm_compute. reflexivity.
Defined.

(** ** When registration raises *)

Lemma dout_at_cases (self : rectangle.t) (i : nat) :
  (exists d, dout_at self i = Ok d) \/ dout_at self i = Raise IndexError.
Proof.
  unfold dout_at, getitem. destruct (rectangle.dout self) as [d | l].
  - left. exists d. reflexivity.
  - destruct (nth_error l i) as [d |]; [left; exists d |right]; reflexivity.
Qed.

Lemma dout_at_raises (self : rectangle.t) (i : nat) :
  dout_at self i = Raise IndexError <->
  exists l, rectangle.dout self = PerEdge l /\ (length l <= i)%nat.
Proof.
  unfold dout_at, getitem. destruct (rectangle.dout self) as [d | l].
  - split; [discriminate | intros [l [H _]]; discriminate].
  - destruct (nth_error l i) as [d |] eqn:E.
    + split; [discriminate |]. intros [l' [H Hl]]. inversion H; subst.
      apply nth_error_None in Hl. congruence.
    + apply nth_error_None in E.
      split; [intros _; exists l; split; [reflexivity | exact E] |
              reflexivity].
Qed.

Lemma add_seg_closed_form (others : list rectangle.t) (self : rectangle.t)
      (g : SplineGeometry) (i : nat) (seg : segment) :
  registered self -> closed self ->
  nth_error (rectangle.segs self) i = Some seg ->
  exists a b,
    rectangle.add_seg others self g i =
    if rectangle.scan_seg others seg then Ok g
    else (d <- dout_at self i ;;
          Ok (Append g (line a b) (rectangle.bnd self)
                     (rectangle.din self) d)).
Proof.
  intros Hreg Hcl Hseg. destruct seg as [p1 p2].
  assert (Hin : In p1 (rectangle.pts self) /\ In p2 (rectangle.pts self)).
  { unfold closed in Hcl. rewrite Forall_forall in Hcl.
    apply (Hcl (p1, p2)). eapply nth_error_In. exact Hseg. }
  destruct (add_seg_registered self i p1 p2 Hseg (proj1 Hin) (proj2 Hin) Hreg)
    as [a [b [_ [_ Heq]]]].
  exists a, b. apply Heq.
Qed.

Lemma add_segs_loop_outcome (others : list rectangle.t) (self : rectangle.t)
      (range : list nat) :
  registered self -> closed self ->
  Forall (fun i => (i < length (rectangle.segs self))%nat) range ->
  forall g,
    ((forall i, In i range -> unsuppressed others self i ->
                exists d, dout_at self i = Ok d) ->
     exists g', for_each (rectangle.add_seg others self) range g = Ok g') /\
    ((exists i, In i range /\ unsuppressed others self i /\
                dout_at self i = Raise IndexError) ->
     for_each (rectangle.add_seg others self) range g = Raise IndexError).
Proof.
  intros Hreg Hcl Hrange.
  induction Hrange as [| i range Hi _ IH]; intros g.
  - split; [intros _; exists g; reflexivity | intros [i [[] _]]].
  - destruct (getitem_in_range _ _ Hi) as [seg [_ Hseg]].
    destruct (add_seg_closed_form others self g i seg Hreg Hcl Hseg)
      as [a [b Hstep]].
    cbn [for_each]. rewrite Hstep. split.
    + intros Hok. destruct (rectangle.scan_seg others seg) eqn:Hscan.
      * cbn [bind]. apply (proj1 (IH g)).
        intros j Hj. apply Hok. right. exact Hj.
      * destruct (Hok i) as [d Hd]; [left; reflexivity | exists seg; auto |].
        rewrite Hd. cbn [bind]. apply (proj1 (IH _)).
        intros j Hj. apply Hok. right. exact Hj.
    + intros [j [Hj [Hu Hd]]].
      destruct (rectangle.scan_seg others seg) eqn:Hscan.
      * cbn [bind]. apply (proj2 (IH g)).
        destruct Hj as [<- | Hj].
        -- destruct Hu as [seg' [Hseg' Hs']].
           rewrite Hseg in Hseg'. inversion Hseg'; subst. congruence.
        -- exists j. auto.
      * destruct (dout_at_cases self i) as [[d Hdi] | Hdi];
          rewrite Hdi; cbn [bind]; [| reflexivity].
        apply (proj2 (IH _)).
        destruct Hj as [<- | Hj]; [congruence |]. exists j. auto.
Qed.

Lemma extend_registered (r : rectangle.t) (ids : list nat) :
  length ids = length (rectangle.pts r) -> registered (extend r ids).
Proof.
  intros H. unfold registered. cbn [extend rectangle.pts rectangle.nums].
  rewrite length_app. lia.
Qed.

Lemma rect_make_geometry_outcome (others : list rectangle.t)
      (r : rectangle.t) (g : SplineGeometry) :
  Forall registered others -> closed r ->
  ((forall i, unsuppressed others r i -> exists d, dout_at r i = Ok d) ->
   exists ids g',
     rectangle.make_geometry others r g = Ok (extend r ids, g') /\
     length ids = length (rectangle.pts r)) /\
  ((exists i, unsuppressed others r i /\ dout_at r i = Raise IndexError) ->
   rectangle.make_geometry others r g = Raise IndexError).
Proof.
  intros Hreg Hcl.
  destruct (add_points_ok others r g Hreg) as [ids [ps [Hpts Hlen]]].
  unfold rectangle.make_geometry. rewrite Hpts. cbn [bind].
  unfold rectangle.add_segs.
  destruct (add_segs_loop_outcome
              others (extend r ids)
              (seq 0 (length (rectangle.segs (extend r ids))))
              (extend_registered r ids Hlen) Hcl) with (g := with_points g ps)
    as [Hok Hbad].
  { apply Forall_forall. intros i Hi. apply in_seq in Hi. lia. }
  split.
  - intros H. destruct Hok as [g' Hg'].
    + intros i _ Hu. apply (H i Hu).
    + rewrite Hg'. cbn [bind]. exists ids, g'. split; [reflexivity | exact Hlen].
  - intros [i [Hu Hd]]. rewrite Hbad; [reflexivity |].
    exists i. split; [| split; assumption].
    destruct Hu as [seg [Hseg _]]. apply in_seq.
    assert (i < length (rectangle.segs r))%nat
      by (apply nth_error_Some; congruence).
    cbn [extend rectangle.segs]. lia.
Qed.

Lemma unsuppressed_decide (others : list rectangle.t) (r : rectangle.t)
      (n : nat) :
  (forall i, (i < n)%nat -> unsuppressed others r i ->
             exists d, dout_at r i = Ok d) \/
  (exists i, unsuppressed others r i /\ dout_at r i = Raise IndexError).
Proof.
  induction n as [| n [IH | IH]].
  - left. intros i Hi. lia.
  - destruct (nth_error (rectangle.segs r) n) as [seg |] eqn:Hseg.
    + destruct (rectangle.scan_seg others seg) eqn:Hscan.
      * left. intros i Hi [seg' [Hs' Hsc]].
        destruct (Nat.eq_dec i n) as [-> | Hne].
        -- rewrite Hseg in Hs'. inversion Hs'; subst. congruence.
        -- apply IH; [lia | exists seg'; auto].
      * destruct (dout_at_cases r n) as [[d Hd] | Hd].
        -- left. intros i Hi Hu.
           destruct (Nat.eq_dec i n) as [-> | Hne]; [exists d; exact Hd |].
           apply IH; [lia | exact Hu].
        -- right. exists n. split; [exists seg; auto | exact Hd].
    + left. intros i Hi [seg' [Hs' Hsc]].
      destruct (Nat.eq_dec i n) as [-> | Hne]; [congruence |].
      apply IH; [lia | exists seg'; auto].
  - right. exact IH.
Qed.

Lemma init_closed (blpt trpt : point) (b di : Z) (d : dout_t) :
  closed (rectangle.init blpt trpt b di d).
Proof.
  unfold closed. rewrite init_segs, init_pts.
  repeat (constructor; [split; simpl; auto 10 |]). constructor.
Qed.

(** X7.  Registering a new rectangle against registered prior rectangles
    either succeeds or raises [IndexError]; it never raises [ValueError]
    (the identifier lookups it makes never miss).  It raises exactly when
    the outer domain is a list and one of the edges that is not suppressed
    has an index the list does not reach: a list that is too short does no
    harm as long as the edges it leaves out are all suppressed. *)
Theorem index_error_iff_uncovered_edge
        (blpt trpt : point) (b di : Z) (dspec : dout_t)
        (others : list rectangle.t) (g : SplineGeometry) :
  Forall registered others ->
  let r := rectangle.init blpt trpt b di dspec in
  ((exists r' g', rectangle.make_geometry others r g = Ok (r', g')) \/
   rectangle.make_geometry others r g = Raise IndexError) /\
  (rectangle.make_geometry others r g = Raise IndexError <->
   exists i l, unsuppressed others r i /\ dspec = PerEdge l /\
               (length l <= i)%nat).
Proof.
  intros Hreg r.
  destruct (rect_make_geometry_outcome others r g Hreg
                                       (init_closed blpt trpt b di dspec))
    as [Hok Hbad].
  assert (Hd : rectangle.dout r = dspec)
    by (subst r; destruct blpt, trpt; reflexivity).
  destruct (unsuppressed_decide others r (length (rectangle.segs r)))
    as [Hall | [i [Hu Hdi]]].
  - destruct Hok as [ids [g' [Hm _]]].
    { intros i [seg [Hseg Hsc]]. apply Hall; [| exists seg; auto].
      apply nth_error_Some. congruence. }
    split; [left; eauto |]. rewrite Hm. split; [discriminate |].
    intros [i [l [[seg [Hseg Hsc]] [Hl Hlen]]]].
    destruct (Hall i) as [d Hdi];
      [apply nth_error_Some; congruence | exists seg; auto |].
    assert (Hr : dout_at r i = Raise IndexError).
    { apply dout_at_raises. exists l. rewrite Hd. auto. }
    congruence.
  - rewrite Hbad by eauto. split; [right; reflexivity |].
    split; [intros _ | reflexivity].
    apply dout_at_raises in Hdi. destruct Hdi as [l [Hl Hlen]].
    exists i, l. rewrite <- Hd. auto.
Qed.

Lemma index_error_iff_uncovered_edge_witness :
  let a := rectangle.mk [(0, 0); (2, 0); (2, 1); (0, 1)]
                        [((0, 0), (2, 0)); ((2, 0), (2, 1));
                         ((2, 1), (0, 1)); ((0, 1), (0, 0))]
                        [0%nat; 1%nat; 2%nat; 3%nat] 1 1 (Scalar 0) in
  let g := {| points := [(0, 0); (2, 0); (2, 1); (0, 1)]; edges := [] |} in
  let r := rectangle.init (0, 1) (2, 2) 7 8 (PerEdge [4]) in
  ((exists r' g', rectangle.make_geometry [a] r g = Ok (r', g')) \/
   rectangle.make_geometry [a] r g = Raise IndexError) /\
  (rectangle.make_geometry [a] r g = Raise IndexError <->
   exists i l, unsuppressed [a] r i /\ PerEdge [4] = PerEdge l /\
               (length l <= i)%nat).
Proof.
  intros a g r.
  apply (index_error_iff_uncovered_edge (0, 1) (2, 2) 7 8 (PerEdge [4]) [a] g).
  constructor; [unfold registered; simpl; lia | constructor].
Defined.

(** ** Builders made through the interface *)

Lemma built_shapes (ez : EzGeom.t) :
  built ez ->
  Forall (fun r => exists blpt trpt b di d,
              r = rectangle.init blpt trpt b di d) (EzGeom.rectangles ez) /\
  Forall (fun c => length (circle.pts c) = 8%nat) (EzGeom.circles ez) /\
  EzGeom.geom ez = SplineGeometry_new.
Proof.
  intros H. induction H as [| s blpt trpt b di d _ [Hr [Hc Hg]]
                              | s cenpt r b di d _ [Hr [Hc Hg]]].
  - repeat split; constructor.
  - cbn [EzGeom.add_rect EzGeom.rectangles EzGeom.circles EzGeom.geom].
    repeat split; try assumption.
    apply Forall_app. split; [exact Hr |]. repeat constructor. eauto 6.
  - cbn [EzGeom.add_circle EzGeom.rectangles EzGeom.circles EzGeom.geom].
    repeat split; try assumption.
    apply Forall_app. split; [exact Hc |]. repeat constructor.
    destruct cenpt. reflexivity.
Qed.

Lemma rect_pass_outcome (todo : list rectangle.t) :
  forall (done : list rectangle.t) (g : SplineGeometry),
    Forall registered done -> Forall closed todo ->
    ((exists out g', rect_pass done todo g = Ok (out, g')) \/
     rect_pass done todo g = Raise IndexError) /\
    (Forall (fun r => forall i, (i < length (rectangle.segs r))%nat ->
                                exists d, dout_at r i = Ok d) todo ->
     exists out g', rect_pass done todo g = Ok (out, g')).
Proof.
  induction todo as [| r todo IH]; intros done g Hreg Hcl.
  - split; [left | intros _]; exists done, g; reflexivity.
  - inversion Hcl as [| ? ? Hr Hcl']; subst.
    destruct (rect_make_geometry_outcome done r g Hreg Hr) as [Hok Hbad].
    cbn [rect_pass]. split.
    + destruct (unsuppressed_decide done r (length (rectangle.segs r)))
        as [Hall | Hex].
      * destruct Hok as [ids [g' [Hm Hlen]]].
        { intros i [seg [Hseg Hsc]]. apply Hall; [| exists seg; auto].
          apply nth_error_Some. congruence. }
        rewrite Hm. cbn [bind]. apply IH; [| exact Hcl'].
        apply Forall_app. split; [exact Hreg |].
        repeat constructor. apply extend_registered, Hlen.
      * right. rewrite (Hbad Hex). reflexivity.
    + intros Hd. inversion Hd as [| ? ? Hd0 Hd']; subst.
      destruct Hok as [ids [g' [Hm Hlen]]].
      { intros i [seg [Hseg _]]. apply Hd0.
        apply nth_error_Some. congruence. }
      rewrite Hm. cbn [bind]. apply IH; [| exact Hcl' | exact Hd'].
      apply Forall_app. split; [exact Hreg |].
      repeat constructor. apply extend_registered, Hlen.
Qed.

Lemma circ_pass_ok (todo : list circle.t) :
  forall (done : list circle.t) (g : SplineGeometry),
    Forall (fun c => length (circle.pts c) = 8%nat) todo ->
    exists out g', circ_pass done todo g = Ok (out, g').
Proof.
  induction todo as [| c todo IH]; intros done g H.
  - eexists _, _. reflexivity.
  - inversion H as [| ? ? Hc H']; subst.
    destruct (circle_make_geometry_ok c g Hc) as [c' [g' Hm]].
    cbn [circ_pass]. rewrite Hm. cbn [bind]. apply IH, H'.
Qed.

(** X8.  A builder obtained from [EzGeom()] by [add_rect] and [add_circle]
    calls is finalized without error when every list given as outer domain
    has at least 4 elements; in any case [make_geometry] ends normally or
    with [IndexError], never with the [ValueError] of a failed identifier
    lookup. *)
Theorem built_make_geometry_outcome (ez : EzGeom.t) :
  built ez ->
  ((exists fin, EzGeom.make_geometry ez = Ok fin) \/
   EzGeom.make_geometry ez = Raise IndexError) /\
  (Forall (fun r => match rectangle.dout r with
                    | Scalar _ => True
                    | PerEdge l => (4 <= length l)%nat
                    end) (EzGeom.rectangles ez) ->
   exists fin, EzGeom.make_geometry ez = Ok fin).
Proof.
  intros Hb. destruct (built_shapes ez Hb) as [Hr [Hc _]].
  assert (Hcl : Forall closed (EzGeom.rectangles ez)).
  { eapply Forall_impl; [| exact Hr].
    intros r [blpt [trpt [b [di [d ->]]]]]. apply init_closed. }
  destruct (rect_pass_outcome (EzGeom.rectangles ez) [] (EzGeom.geom ez)
                              (Forall_nil _) Hcl) as [Hout Hok].
  assert (Hfin : forall out g',
             rect_pass [] (EzGeom.rectangles ez) (EzGeom.geom ez)
             = Ok (out, g') ->
             exists fin, EzGeom.make_geometry ez = Ok fin).
  { intros out g' Hp. rewrite make_geometry_pass, Hp. cbn [bind].
    destruct (circ_pass_ok (EzGeom.circles ez) [] g' Hc) as [cs [g'' Hcp]].
    rewrite Hcp. cbn [bind]. eauto. }
  split.
  - destruct Hout as [[out [g' Hp]] | Hp].
    + left. eapply Hfin, Hp.
    + right. rewrite make_geometry_pass, Hp. reflexivity.
  - intros Hd. destruct Hok as [out [g' Hp]]; [| eapply Hfin, Hp].
    rewrite Forall_forall in *. intros r Hin i Hi.
    specialize (Hd r Hin). destruct (Hr r Hin) as [blpt [trpt [b [di [d ->]]]]].
    rewrite init_segs in Hi. cbn [length] in Hi.
    destruct blpt, trpt. unfold dout_at. cbn in *.
    destruct d as [D | l]; [eauto |].
    exists (nth i l 0). apply getitem_nth. lia.
Qed.

Lemma built_make_geometry_outcome_witness :
  let ez := EzGeom.add_circle
              (EzGeom.add_rect EzGeom.init (0, 0) (1, 1) 5 1
                               (PerEdge [1; 2; 3; 4; 5]))
              (3, 3) 1 6 0 1 in
  ((exists fin, EzGeom.make_geometry ez = Ok fin) \/
   EzGeom.make_geometry ez = Raise IndexError) /\
  exists fin, EzGeom.make_geometry ez = Ok fin.
Proof.
  intros ez.
  destruct (built_make_geometry_outcome ez) as [H1 H2].
  - subst ez. repeat constructor.
  - split; [exact H1 |]. apply H2.
    constructor; [simpl; lia | constructor].
Defined.

(** ** Later rectangles *)

Lemma rect_pass_app (todo more : list rectangle.t) :
  forall (done : list rectangle.t) (g : SplineGeometry),
    rect_pass done (todo ++ more) g =
    ('(out, g') <- rect_pass done todo g ;; rect_pass out more g').
Proof.
  induction todo as [| r todo IH]; intros done g; cbn [app rect_pass bind].
  - reflexivity.
  - destruct (rectangle.make_geometry done r g) as [[r' g'] |]; cbn [bind];
      [apply IH | reflexivity].
Qed.

(** X9.  A rectangle added last takes no part in the registration of the
    ones before it: on a builder without circles, finalizing after one more
    [add_rect] is finalizing without it and then registering the new
    rectangle against the rectangles so registered, on the description so
    obtained. *)
Theorem last_rectangle_registered_after_the_others
        (s0 : EzGeom.t) (blpt trpt : point) (b di : Z) (d : dout_t) :
  EzGeom.circles s0 = [] ->
  EzGeom.make_geometry (EzGeom.add_rect s0 blpt trpt b di d) =
  (s <- EzGeom.make_geometry s0 ;;
   '(r', g') <- rectangle.make_geometry
                  (EzGeom.rectangles s) (rectangle.init blpt trpt b di d)
                  (EzGeom.geom s) ;;
   Ok (EzGeom.mk (EzGeom.rectangles s ++ [r']) [] g')).
Proof.
  intros Hc. rewrite !make_geometry_pass.
  cbn [EzGeom.add_rect EzGeom.rectangles EzGeom.circles EzGeom.geom].
  rewrite rect_pass_app, Hc.
  destruct (rect_pass [] (EzGeom.rectangles s0) (EzGeom.geom s0))
    as [[out g'] |]; cbn [bind circ_pass]; [| reflexivity].
  cbn [rect_pass EzGeom.rectangles EzGeom.geom].
  destruct (rectangle.make_geometry out (rectangle.init blpt trpt b di d) g')
    as [[r' g''] |]; reflexivity.
Qed.

Lemma last_rectangle_registered_after_the_others_witness :
  let s0 := EzGeom.add_rect EzGeom.init (0, 0) (2, 1) 5 1 (Scalar 0) in
  EzGeom.make_geometry (EzGeom.add_rect s0 (0, 1) (2, 2) 5 2 (Scalar 0)) =
  (s <- EzGeom.make_geometry s0 ;;
   '(r', g') <- rectangle.make_geometry
                  (EzGeom.rectangles s)
                  (rectangle.init (0, 1) (2, 2) 5 2 (Scalar 0))
                  (EzGeom.geom s) ;;
   Ok (EzGeom.mk (EzGeom.rectangles s ++ [r']) [] g')).
Proof.
  intros s0.
  apply (last_rectangle_registered_after_the_others
           s0 (0, 1) (2, 2) 5 2 (Scalar 0)).
  reflexivity.
Defined.

(** ** The same rectangle twice *)

(** X10.  Adding a proper rectangle a second time, with whatever tags,
    registers no point (the second rectangle records the identifiers of the
    first) but registers its four lines again, between the same
    identifiers: [has_seg] looks for the reverse of an edge only. *)
Theorem same_rectangle_twice
        (blpt trpt : point) (b1 di1 D1 b2 di2 D2 : Z) :
  proper blpt trpt ->
  exists first second fin,
    EzGeom.make_geometry
      (EzGeom.add_rect
         (EzGeom.add_rect EzGeom.init blpt trpt b1 di1 (Scalar D1))
         blpt trpt b2 di2 (Scalar D2)) = Ok fin /\
    EzGeom.rectangles fin = [first; second] /\
    rectangle.nums first = [0; 1; 2; 3]%nat /\
    rectangle.nums second = [0; 1; 2; 3]%nat /\
    points (EzGeom.geom fin) = rectangle.pts first /\
    edges (EzGeom.geom fin) =
      [mk_edge (line 0 1) b1 di1 D1; mk_edge (line 1 2) b1 di1 D1;
       mk_edge (line 2 3) b1 di1 D1; mk_edge (line 3 0) b1 di1 D1;
       mk_edge (line 0 1) b2 di2 D2; mk_edge (line 1 2) b2 di2 D2;
       mk_edge (line 2 3) b2 di2 D2; mk_edge (line 3 0) b2 di2 D2].
Proof.
  destruct blpt as [x0 y0], trpt as [x1 y1].
  unfold proper. cbn [fst snd]. intros [Hx Hy].
  rewrite make_geometry_pass. run.
  do 3 eexists. split; [reflexivity |].
  repeat split.
Qed.

Lemma same_rectangle_twice_witness :
  exists first second fin,
    EzGeom.make_geometry
      (EzGeom.add_rect
         (EzGeom.add_rect EzGeom.init (0, 0) (2, 1) 5 1 (Scalar 0))
         (0, 0) (2, 1) 6 2 (Scalar 1)) = Ok fin /\
    EzGeom.rectangles fin = [first; second] /\
    rectangle.nums first = [0; 1; 2; 3]%nat /\
    rectangle.nums second = [0; 1; 2; 3]%nat /\
    points (EzGeom.geom fin) = rectangle.pts first /\
    edges (EzGeom.geom fin) =
      [mk_edge (line 0 1) 5 1 0; mk_edge (line 1 2) 5 1 0;
       mk_edge (line 2 3) 5 1 0; mk_edge (line 3 0) 5 1 0;
       mk_edge (line 0 1) 6 2 1; mk_edge (line 1 2) 6 2 1;
       mk_edge (line 2 3) 6 2 1; mk_edge (line 3 0) 6 2 1].
Proof.
  apply (same_rectangle_twice (0, 0) (2, 1) 5 1 0 6 2 1).
  unfold proper. simpl. lia.
Defined.

(** ** One identifier per corner *)

(** X11.  On a builder whose description holds no point yet and whose
    rectangles are not registered yet and each have four different corners,
    after a successful [make_geometry] a point that is a corner of several
    rectangles has the same identifier in all of them. *)
Theorem shared_corner_same_identifier
        (ez fin : EzGeom.t) (r1 r2 : rectangle.t) (p : point) (n1 n2 : nat) :
  Forall (fun r => rectangle.nums r = []) (EzGeom.rectangles ez) ->
  Forall (fun r => NoDup (rectangle.pts r)) (EzGeom.rectangles ez) ->
  points (EzGeom.geom ez) = [] ->
  EzGeom.make_geometry ez = Ok fin ->
  In r1 (EzGeom.rectangles fin) -> In r2 (EzGeom.rectangles fin) ->
  rectangle.get_num r1 p = Ok n1 -> rectangle.get_num r2 p = Ok n2 ->
  n1 = n2.
Proof.
  intros Hnil Hnd Hempty H Hin1 Hin2 Hn1 Hn2.
  rewrite make_geometry_pass in H.
  destruct (rect_pass [] (EzGeom.rectangles ez) (EzGeom.geom ez))
    as [[rs1 ga] |] eqn:Hrect; cbn [bind] in H; [| discriminate].
  destruct (circ_pass [] (EzGeom.circles ez) ga)
    as [[cs1 gb] |] eqn:Hcirc; cbn [bind] in H; [| discriminate].
  inversion H; subst fin. clear H.
  cbn [EzGeom.rectangles] in Hin1, Hin2.
  assert (Hga : NoDup (points ga)).
  { apply (rect_pass_nodup _ _ _ _ _ Hnd) with (3 := Hrect).
    - rewrite Hempty. constructor.
    - intros q. rewrite Hempty. split; [intros [] | intros [o [[] _]]]. }
  destruct (rect_pass_profile _ _ _ _ _ Hrect)
    as [rnew [ps [es [_ [_ [Hg Hr]]]]]].
  destruct (Hr Hnil (Forall_nil _)) as [Hden _].
  rewrite Forall_forall in Hden.
  pose proof (get_num_denotes ga r1 p n1 (Hden r1 Hin1) Hn1) as E1.
  pose proof (get_num_denotes ga r2 p n2 (Hden r2 Hin2) Hn2) as E2.
  apply (proj1 (NoDup_nth_error (points ga)) Hga).
  - apply nth_error_Some. congruence.
  - congruence.
Qed.

Lemma shared_corner_same_identifier_witness :
  exists fin r1 r2,
    EzGeom.make_geometry
      (EzGeom.add_rect
         (EzGeom.add_rect EzGeom.init (0, 0) (2, 1) 5 1 (Scalar 0))
         (0, 1) (2, 2) 5 2 (Scalar 0)) = Ok fin /\
    EzGeom.rectangles fin = [r1; r2] /\
    rectangle.get_num r1 (2, 1) = Ok 2%nat /\
    rectangle.get_num r2 (2, 1) = Ok 2%nat /\
    (2 = 2)%nat.
Proof.
  do 3 eexists.
  split; [vm_compute; reflexivity |]. split; [reflexivity |].
  split; [reflexivity |]. split; [reflexivity |].
  eapply (shared_corner_same_identifier
            (EzGeom.add_rect
               (EzGeom.add_rect EzGeom.init (0, 0) (2, 1) 5 1 (Scalar 0))
               (0, 1) (2, 2) 5 2 (Scalar 0))
            _ _ _ (2, 1) 2 2).
  - repeat constructor.
  - repeat constructor; simpl; intuition discriminate.
  - reflexivity.
  - vm_compute. reflexivity.
  - left. reflexivity.
  - right. left. reflexivity.
  - reflexivity.
  - reflexivity.
Defined.

(** ** The identifier recorded for a corner *)

Lemma scan_pt_split (others : list rectangle.t) (pt : point) :
  match rectangle.scan_pt others pt with
  | Some rect =>
      exists pre post,
        others = pre ++ rect :: post /\
        Forall (fun o => rectangle.has_pt o pt = false) pre /\
        rectangle.has_pt rect pt = true
  | None => Forall (fun o => rectangle.has_pt o pt = false) others
  end.
Proof.
  induction others as [| o others IH]; simpl.
  - constructor.
  - destruct (rectangle.has_pt o pt) eqn:Ho.
    + exists [], others. repeat split; [constructor | exact Ho].
    + destruct (rectangle.scan_pt others pt) as [rect |].
      * destruct IH as [pre [post [-> [Hpre Hr]]]].
        exists (o :: pre), post. repeat split; [constructor |]; assumption.
      * constructor; assumption.
Qed.

Lemma get_num_Ok (r : rectangle.t) (pt : point) (n : nat) :
  rectangle.get_num r pt = Ok n ->
  exists j, index (rectangle.pts r) pt = Ok j /\
            nth_error (rectangle.nums r) j = Some n.
Proof.
  unfold rectangle.get_num. intros H.
  destruct (index (rectangle.pts r) pt) as [j |]; cbn [bind] in H;
    [| discriminate].
  exists j. split; [reflexivity | apply getitem_Ok, H].
Qed.

Lemma add_point_pinned (others : list rectangle.t) (self self' : rectangle.t)
      (g g' : SplineGeometry) (i : nat) :
  rectangle.add_point others (self, g) i = Ok (self', g') ->
  exists pt n,
    nth_error (rectangle.pts self) i = Some pt /\
    self' = extend self [n] /\
    g' = with_points g (if unowned others pt then [pt] else []) /\
    corner_id others g g' pt n.
Proof.
  unfold rectangle.add_point. intros H.
  destruct (getitem (rectangle.pts self) i) as [pt |] eqn:Hpt; cbn [bind] in H;
    [| discriminate].
  apply getitem_Ok in Hpt. exists pt. rewrite scan_pt_unowned.
  pose proof (scan_pt_split others pt) as Hsplit.
  destruct (rectangle.scan_pt others pt) as [rect |] eqn:Hscan.
  - destruct (rectangle.get_num rect pt) as [n |] eqn:Hn; cbn [bind] in H;
      [| discriminate].
    inversion H; subst. exists n. rewrite with_points_nil.
    repeat split; [assumption |]. left.
    destruct Hsplit as [pre [post [Ho [Hpre Hr]]]].
    destruct (get_num_Ok _ _ _ Hn) as [j [Hj Hnj]].
    exists pre, rect, post, j. auto.
  - destruct pt as [x y]. cbn in H. inversion H; subst.
    exists (length (points g)). repeat split; [assumption |]. right.
    split; [exact Hsplit |]. split; [lia |].
    cbn [with_points points].
    rewrite nth_error_app2, Nat.sub_diag by lia. reflexivity.
Qed.

Lemma corner_id_earlier (others : list rectangle.t) (g g1 : SplineGeometry)
      (qs rs : list point) (pt : point) (n : nat) :
  g1 = with_points g qs ->
  corner_id others g1 (with_points g1 rs) pt n ->
  corner_id others g (with_points g (qs ++ rs)) pt n.
Proof.
  intros -> [H | [Hnone [Hle Hnth]]]; [left; exact H | right].
  rewrite with_points_app in Hnth. cbn [with_points points] in Hle.
  rewrite length_app in Hle. split; [exact Hnone |]. split; [lia | exact Hnth].
Qed.

Lemma corner_id_later (others : list rectangle.t) (g : SplineGeometry)
      (qs rs : list point) (pt : point) (n : nat) :
  corner_id others g (with_points g qs) pt n ->
  corner_id others g (with_points g (qs ++ rs)) pt n.
Proof.
  intros [H | [Hnone [Hle Hnth]]]; [left; exact H | right].
  split; [exact Hnone |]. split; [exact Hle |].
  rewrite <- with_points_app. apply nth_with_points, Hnth.
Qed.

Lemma add_points_loop_pinned (others : list rectangle.t) (suf : list point) :
  forall (pre : list point) (self self' : rectangle.t) (g g' : SplineGeometry),
    rectangle.pts self = pre ++ suf ->
    for_each (rectangle.add_point others) (seq (length pre) (length suf))
             (self, g) = Ok (self', g') ->
    exists ids,
      self' = extend self ids /\
      g' = with_points g (filter (unowned others) suf) /\
      Forall2 (corner_id others g g') suf ids.
Proof.
  induction suf as [| pt suf IH]; intros pre self self' g g' Hpts H;
    cbn [length seq for_each] in H.
  - inversion H; subst. exists []. rewrite extend_nil. cbn [filter].
    rewrite with_points_nil. repeat split. constructor.
  - destruct (rectangle.add_point others (self, g) (length pre))
      as [[s1 g1] |] eqn:Hstep; cbn [bind] in H; [| discriminate].
    destruct (add_point_pinned _ _ _ _ _ _ Hstep)
      as [pt' [n [Hnth [-> [Hg1 Hid]]]]].
    rewrite Hpts, nth_error_length_app in Hnth. inversion Hnth; subst pt'.
    specialize (IH (pre ++ [pt]) (extend self [n]) self' g1 g').
    rewrite length_app in IH. cbn [length] in IH.
    replace (length pre + 1)%nat with (S (length pre)) in IH by lia.
    assert (Hpts' : rectangle.pts (extend self [n]) = (pre ++ [pt]) ++ suf).
    { cbn [extend rectangle.pts]. rewrite Hpts, <- app_assoc. reflexivity. }
    destruct (IH Hpts' H) as [ids [Hs [Hg Hrest]]].
    subst self'. clear IH.
    exists (n :: ids). rewrite extend_extend.
    assert (Hg' : g' = with_points g (filter (unowned others) (pt :: suf))).
    { rewrite Hg, Hg1, with_points_app. cbn [filter].
      destruct (unowned others pt); reflexivity. }
    split; [reflexivity |]. split; [exact Hg' |].
    rewrite Hg'. cbn [filter].
    replace (if unowned others pt
             then pt :: filter (unowned others) suf
             else filter (unowned others) suf)
      with ((if unowned others pt then [pt] else [])
              ++ filter (unowned others) suf)
      by (destruct (unowned others pt); reflexivity).
    constructor.
    + apply corner_id_later. rewrite <- Hg1. exact Hid.
    + rewrite Hg in Hrest.
      eapply Forall2_impl; [| exact Hrest].
      intros q m Hq. eapply corner_id_earlier; [exact Hg1 | exact Hq].
Qed.

Lemma Forall2_nth_error {A B : Type} (R : A -> B -> Prop) (l : list A)
      (l' : list B) (i : nat) (a : A) :
  Forall2 R l l' -> nth_error l i = Some a ->
  exists b, nth_error l' i = Some b /\ R a b.
Proof.
  intros H. revert i. induction H as [| x y l l' Hxy _ IH]; intros i Hi.
  - destruct i; discriminate.
  - destruct i as [| i]; simpl in Hi.
    + inversion Hi; subst. exists y. split; [reflexivity | exact Hxy].
    + apply IH, Hi.
Qed.

Lemma rect_pass_registered (todo : list rectangle.t) :
  forall (done out : list rectangle.t) (g g' : SplineGeometry),
    Forall registered done ->
    rect_pass done todo g = Ok (out, g') -> Forall registered out.
Proof.
  induction todo as [| r todo IH]; intros done out g g' Hreg H;
    cbn [rect_pass] in H.
  - inversion H; subst. exact Hreg.
  - destruct (rectangle.make_geometry done r g) as [[r1 g1] |] eqn:Hr;
      cbn [bind] in H; [| discriminate].
    destruct (rect_make_geometry_profile _ _ _ _ _ Hr)
      as [ids [es [-> [Hlen _]]]].
    apply (IH _ _ _ _) with (2 := H).
    apply Forall_app. split; [exact Hreg |].
    repeat constructor. apply extend_registered, Hlen.
Qed.

(** When the builder's loop reaches a rectangle, the rectangles before it
    have been registered as if they were alone, and it is registered against
    them. *)
Lemma make_geometry_reaches (rs rest : list rectangle.t) (r : rectangle.t)
      (cs : list circle.t) (g : SplineGeometry) (fin : EzGeom.t) :
  EzGeom.make_geometry (EzGeom.mk (rs ++ r :: rest) cs g) = Ok fin ->
  exists s r' ga g2 rest',
    EzGeom.make_geometry (EzGeom.mk rs [] g) = Ok s /\
    Forall2 sim rs (EzGeom.rectangles s) /\
    Forall registered (EzGeom.rectangles s) /\
    rectangle.add_points (EzGeom.rectangles s) r (EzGeom.geom s)
    = Ok (r', ga) /\
    rectangle.add_segs (EzGeom.rectangles s) r' ga = Ok g2 /\
    EzGeom.rectangles fin = EzGeom.rectangles s ++ r' :: rest' /\
    Forall2 sim rest rest'.
Proof.
  intros H. rewrite make_geometry_pass in H.
  cbn [EzGeom.rectangles EzGeom.circles EzGeom.geom] in H.
  rewrite rect_pass_app in H.
  destruct (rect_pass [] rs g) as [[out g1] |] eqn:Hrs; cbn [bind] in H;
    [| discriminate].
  cbn [rect_pass] in H.
  destruct (rectangle.make_geometry out r g1) as [[r' g2] |] eqn:Hr;
    cbn [bind] in H; [| discriminate].
  destruct (rect_pass (out ++ [r']) rest g2) as [[rs1 g3] |] eqn:Hrest;
    cbn [bind] in H; [| discriminate].
  destruct (circ_pass [] cs g3) as [[cs1 g4] |]; cbn [bind] in H;
    [| discriminate].
  inversion H; subst fin. clear H.
  destruct (rect_pass_profile _ _ _ _ _ Hrs) as [new [ps [es [Hout [Hsim _]]]]].
  cbn [app] in Hout. subst new.
  destruct (rect_pass_profile _ _ _ _ _ Hrest)
    as [rest' [qs [fs [Hout' [Hsim' _]]]]].
  unfold rectangle.make_geometry in Hr.
  destruct (rectangle.add_points out r g1) as [[r1 ga] |] eqn:Hpts;
    cbn [bind] in Hr; [| discriminate].
  destruct (rectangle.add_segs out r1 ga) as [gb |] eqn:Hsegs;
    cbn [bind] in Hr; [| discriminate].
  inversion Hr; subst r1 gb. clear Hr.
  exists (EzGeom.mk out [] g1), r', ga, g2, rest'.
  cbn [EzGeom.rectangles EzGeom.geom].
  split.
  { rewrite make_geometry_pass.
    cbn [EzGeom.rectangles EzGeom.circles EzGeom.geom].
    rewrite Hrs. reflexivity. }
  split; [exact Hsim |].
  split; [exact (rect_pass_registered _ _ _ _ _ (Forall_nil _) Hrs) |].
  split; [exact Hpts |]. split; [exact Hsegs |].
  split; [rewrite Hout', <- app_assoc; reflexivity | exact Hsim'].
Qed.

(** C2.  Point registration handles the 4 corners of a rectangle in the
    order bottom-left, bottom-right, top-right, top-left.  For a corner
    [pt], the prior rectangles are scanned in list order: the first one that
    has [pt] among its corners supplies the identifier it holds at the
    position of [pt] in its own corner list, that identifier is appended to
    the rectangle's identifiers and the description is left as it was; when
    no prior rectangle has [pt], the point is appended to the description
    and the identifier it receives, which was not issued before, is
    recorded.  So the whole of [add_points] records, corner by corner, the
    identifier described above, and appends exactly the corners no prior
    rectangle owns.  In [EzGeom.make_geometry] the prior rectangles of a
    rectangle are the rectangles added before it, in insertion order, as
    finalizing them alone leaves them. *)
Theorem add_points_first_match_or_fresh :
  (forall blpt trpt b di d others g,
      let r := rectangle.init blpt trpt b di d in
      rectangle.pts r =
        [blpt; (fst trpt, snd blpt); trpt; (fst blpt, snd trpt)] /\
      rectangle.add_points others r g =
        for_each (rectangle.add_point others) [0; 1; 2; 3]%nat (r, g)) /\
  (forall pre rect post self g i pt,
      nth_error (rectangle.pts self) i = Some pt ->
      Forall (fun o => rectangle.has_pt o pt = false) pre ->
      rectangle.has_pt rect pt = true ->
      registered rect ->
      exists j n,
        index (rectangle.pts rect) pt = Ok j /\
        nth_error (rectangle.pts rect) j = Some pt /\
        nth_error (rectangle.nums rect) j = Some n /\
        rectangle.add_point (pre ++ rect :: post) (self, g) i =
          Ok (rectangle.append_num self n, g)) /\
  (forall others self g i pt,
      nth_error (rectangle.pts self) i = Some pt ->
      Forall (fun o => rectangle.has_pt o pt = false) others ->
      rectangle.add_point others (self, g) i =
        Ok (rectangle.append_num self (length (points g)),
            {| points := points g ++ [pt]; edges := edges g |})) /\
  (forall others self self' g g',
      rectangle.add_points others self g = Ok (self', g') ->
      rectangle.pts self' = rectangle.pts self /\
      points g' = points g ++ filter (unowned others) (rectangle.pts self) /\
      edges g' = edges g /\
      forall i pt,
        nth_error (rectangle.pts self) i = Some pt ->
        exists n,
          nth_error (rectangle.nums self')
                    (length (rectangle.nums self) + i) = Some n /\
          corner_id others g g' pt n) /\
  (forall rs r rest cs g fin,
      EzGeom.make_geometry (EzGeom.mk (rs ++ r :: rest) cs g) = Ok fin ->
      exists s r' ga g2 rest',
        EzGeom.make_geometry (EzGeom.mk rs [] g) = Ok s /\
        Forall2 sim rs (EzGeom.rectangles s) /\
        Forall registered (EzGeom.rectangles s) /\
        rectangle.add_points (EzGeom.rectangles s) r (EzGeom.geom s)
        = Ok (r', ga) /\
        rectangle.add_segs (EzGeom.rectangles s) r' ga = Ok g2 /\
        EzGeom.rectangles fin = EzGeom.rectangles s ++ r' :: rest' /\
        Forall2 sim rest rest').
Proof.
  split; [| split; [| split; [| split]]].
  - intros blpt trpt b di d others g r. split; [apply init_pts |].
    unfold rectangle.add_points. subst r. rewrite init_pts. reflexivity.
  - intros pre rect post self g i pt Hpt Hpre Hrect Hreg.
    destruct (index_present _ _ Hrect) as [j [Hj [Hnj Hlt]]].
    destruct (getitem_in_range (rectangle.nums rect) j) as [n [Hg Hn]];
      [unfold registered in Hreg; lia |].
    exists j, n. repeat split; try assumption.
    unfold rectangle.add_point. apply getitem_Ok in Hpt. rewrite Hpt.
    cbn [bind]. rewrite (scan_pt_first _ _ _ _ Hpre Hrect).
    unfold rectangle.get_num. rewrite Hj. cbn [bind]. rewrite Hg.
    reflexivity.
  - intros others self g i pt Hpt Hnone.
    unfold rectangle.add_point. apply getitem_Ok in Hpt. rewrite Hpt. simpl.
    rewrite (scan_pt_none _ _ Hnone). destruct pt; reflexivity.
  - intros others self self' g g' H.
    destruct (add_points_loop_pinned others (rectangle.pts self) [] self self'
                                     g g' eq_refl H) as [ids [-> [-> Hids]]].
    split; [reflexivity |]. split; [reflexivity |]. split; [reflexivity |].
    intros i pt Hpt.
    destruct (Forall2_nth_error _ _ _ i pt Hids Hpt) as [n [Hn Hid]].
    exists n. split; [| exact Hid].
    cbn [extend rectangle.nums]. rewrite nth_error_app2 by lia.
    replace (length (rectangle.nums self) + i - length (rectangle.nums self))%nat
      with i by lia.
    exact Hn.
  - intros rs r rest cs g fin H. apply (make_geometry_reaches _ _ _ _ _ _ H).
Qed.

Lemma add_points_first_match_or_fresh_witness :
  let a := rectangle.mk [(0, 0); (2, 0); (2, 1); (0, 1)]
                        [((0, 0), (2, 0)); ((2, 0), (2, 1));
                         ((2, 1), (0, 1)); ((0, 1), (0, 0))]
                        [0%nat; 1%nat; 2%nat; 3%nat] 1 1 (Scalar 0) in
  let c := rectangle.mk [(5, 5); (6, 5); (6, 6); (5, 6)]
                        [((5, 5), (6, 5)); ((6, 5), (6, 6));
                         ((6, 6), (5, 6)); ((5, 6), (5, 5))]
                        [4%nat; 5%nat; 6%nat; 7%nat] 1 1 (Scalar 0) in
  let b := rectangle.init (0, 1) (2, 2) 7 8 (Scalar 0) in
  let g := {| points := [(0, 0); (2, 0); (2, 1); (0, 1);
                         (5, 5); (6, 5); (6, 6); (5, 6)];
              edges := [] |} in
  (exists j n,
      index (rectangle.pts a) (0, 1) = Ok j /\
      nth_error (rectangle.pts a) j = Some (0, 1) /\
      nth_error (rectangle.nums a) j = Some n /\
      rectangle.add_point ([c] ++ a :: []) (b, g) 0 =
        Ok (rectangle.append_num b n, g)) /\
  rectangle.add_point [c; a] (b, g) 2 =
    Ok (rectangle.append_num b 8,
        {| points := points g ++ [(2, 2)]; edges := edges g |}) /\
  (exists s r' ga g2 rest',
      EzGeom.make_geometry
        (EzGeom.mk [rectangle.init (0, 0) (2, 1) 1 1 (Scalar 0)] [] SplineGeometry_new)
      = Ok s /\
      Forall2 sim [rectangle.init (0, 0) (2, 1) 1 1 (Scalar 0)]
              (EzGeom.rectangles s) /\
      Forall registered (EzGeom.rectangles s) /\
      rectangle.add_points (EzGeom.rectangles s) b (EzGeom.geom s)
      = Ok (r', ga) /\
      rectangle.add_segs (EzGeom.rectangles s) r' ga = Ok g2 /\
      EzGeom.rectangles
        {| EzGeom.rectangles :=
             [rectangle.mk [(0, 0); (2, 0); (2, 1); (0, 1)]
                           [((0, 0), (2, 0)); ((2, 0), (2, 1));
                            ((2, 1), (0, 1)); ((0, 1), (0, 0))]
                           [0%nat; 1%nat; 2%nat; 3%nat] 1 1 (Scalar 0);
              rectangle.mk [(0, 1); (2, 1); (2, 2); (0, 2)]
                           [((0, 1), (2, 1)); ((2, 1), (2, 2));
                            ((2, 2), (0, 2)); ((0, 2), (0, 1))]
                           [3%nat; 2%nat; 4%nat; 5%nat] 7 8 (Scalar 0)];
           EzGeom.circles := [];
           EzGeom.geom :=
             {| points := [(0, 0); (2, 0); (2, 1); (0, 1); (2, 2); (0, 2)];
                edges := [mk_edge (line 0 1) 1 1 0; mk_edge (line 1 2) 1 1 0;
                          mk_edge (line 2 3) 1 1 0; mk_edge (line 3 0) 1 1 0;
                          mk_edge (line 2 4) 7 8 0; mk_edge (line 4 5) 7 8 0;
                          mk_edge (line 5 3) 7 8 0] |} |}
      = EzGeom.rectangles s ++ r' :: rest' /\
      Forall2 sim [] rest').
Proof.
  intros a c b g. split; [| split].
  - apply (proj1 (proj2 add_points_first_match_or_fresh)).
    + reflexivity.
    + repeat constructor.
    + reflexivity.
    + unfold registered. simpl. lia.
  - apply (proj1 (proj2 (proj2 add_points_first_match_or_fresh))).
    + reflexivity.
    + repeat constructor.
  - apply (proj2 (proj2 (proj2 (proj2 add_points_first_match_or_fresh)))
             [rectangle.init (0, 0) (2, 1) 1 1 (Scalar 0)] b [] []
             SplineGeometry_new).
    vm_compute. reflexivity.
Defined.
